(** * WebcamComponent: the detection-driven countdown timer

    A shallow embedding of [components/WebcamComponent.tsx] (the React
    client component of the eye-tracking timer) and the properties of its
    timer display, its timer effect and its frame loop.  Line numbers refer
    to the first copy of the component in [src/unnamed/part_000]
    (lines 1-155); the second copy in that file (lines 156-282) has no
    Start button and registers the 'loadeddata' listener from an effect
    that depends on [faceLandmarker]; it is modelled in [Component2].

    Numbers.  [timer] is a JavaScript number that starts at [30 * 60] and
    only ever changes by [prevTimer - 1]; it is always an integer far inside
    the range in which doubles are exact, so it is modelled as [Z].
    [Math.floor (timer / 60)] is floor division ([Z.div]) and [timer % 60]
    is the remainder that takes the sign of the dividend ([Z.rem]).

    Runtime.  The component is a state machine driven by the callbacks that
    React and the browser invoke; one [event] is one such callback run to
    its end (an [async] function runs to its next [await]).  What the model
    takes from React and the DOM:
    - a state setter updates the cell of a mounted component and is
      dropped after unmount;
    - after a callback React re-renders, and an effect whose dependencies
      changed runs its cleanup and then its body, before the next event;
      unmounting runs the cleanup;
    - a closure created during a render sees the state of that render;
    - [ref.current] is [null] while its element is not rendered;
    - interval handles are positive numbers, so [if (interval)] tests for
      [null];
    - 'loadeddata' fires once for the stream attached at line 64, and the
      Start button can be pressed only while it is rendered (line 116). *)

From Stdlib Require Import ZArith List String Ascii Bool Lia DecimalString
  DecimalZ DecimalPos.
Import ListNotations.
Open Scope Z_scope.

(** ** The time readout (line 149) *)

Module Display.

Local Open Scope string_scope.

(** [Number.prototype.toString] on an integer: decimal digits, a leading
    ["-"] for negative values, ["0"] for zero (also for [-0]). *)
Definition toString (n : Z) : string :=
  NilZero.string_of_int (Z.to_int n).

(** The first [n] characters of [fill] repeated cyclically; [rest] is what
    is left of the current copy of [fill]. *)
Fixpoint filler (n : nat) (fill rest : string) : string :=
  match n with
  | O => ""
  | S n' =>
      match rest with
      | String c r => String c (filler n' fill r)
      | EmptyString =>
          match fill with
          | String c r => String c (filler n' fill r)
          | EmptyString => ""
          end
      end
  end.

(** [String.prototype.padStart (targetLength, padString)]: a string that is
    already long enough is returned as it is, otherwise the padding goes in
    front. *)
Definition padStart (targetLength : nat) (padString : string) (s : string)
  : string :=
  if (targetLength <=? String.length s)%nat then s
  else filler (targetLength - String.length s) padString padString ++ s.

(** The template literal of line 149:
    [`${Math.floor(timer / 60)}:${(timer % 60).toString().padStart(2, '0')}`]. *)
Definition display (timer : Z) : string :=
  toString (timer / 60) ++ ":" ++ padStart 2 "0" (toString (Z.rem timer 60)).

(** *** The readout as the specification words it *)

Definition digit (d : Z) : ascii :=
  ascii_of_nat (48 + Z.to_nat d).

(** [pad2 n]: a number below 100 written with exactly two decimal digits. *)
Definition pad2 (n : Z) : string :=
  String (digit (n / 10)) (String (digit (n mod 10)) "").

(** [floor(s/60) + ":" + pad2(s % 60)], with the mathematical floor and
    modulo. *)
Definition display_spec (s : Z) : string :=
  toString (s / 60) ++ ":" ++ pad2 (s mod 60).

(** *** The shape [M:SS] *)

Definition is_digit (c : ascii) : bool :=
  let n := nat_of_ascii c in ((48 <=? n) && (n <=? 57))%nat.

Definition two_digits (s : string) : bool :=
  match s with
  | String a (String b EmptyString) => is_digit a && is_digit b
  | _ => false
  end.

(** Reads the minutes field: one or more decimal digits up to the colon,
    then exactly two decimal digits. *)
Fixpoint is_M_SS_from (seen_digit : bool) (s : string) : bool :=
  match s with
  | EmptyString => false
  | String c rest =>
      if is_digit c then is_M_SS_from true rest
      else if Ascii.eqb c ":" then seen_digit && two_digits rest
      else false
  end.

Definition is_M_SS (s : string) : bool := is_M_SS_from false s.

(** The empty decimal numeral. *)
Definition is_Nil (d : Decimal.uint) : bool :=
  match d with Decimal.Nil => true | _ => false end.

(** The seconds field: what follows the first colon. *)
Fixpoint seconds_field (s : string) : string :=
  match s with
  | EmptyString => ""
  | String c rest => if Ascii.eqb c ":" then rest else seconds_field rest
  end.

End Display.

(** ** The component (lines 8-153) *)

Module Component.

(** The detector instance returned by [FaceLandmarker.createFromOptions];
    opaque to the component. *)
Definition FaceLandmarker : Type := nat.

(** One normalized landmark point of a detected face; its coordinates play
    no role in the control flow. *)
Definition Landmark : Type := nat.

(** What [detectFace] (lines 70-101) closes over by value: the
    [faceLandmarker] of the render in which [handleStart] was created.  The
    refs and the state setters it also mentions are shared objects, read
    from the state when the function runs. *)
Record closure := mkClosure { captured : option FaceLandmarker }.

(** Calls on the browser that the component makes, in program order; the
    [line] of a [ClearInterval] is the source line of the call. *)
Inductive call :=
| SetInterval (id : positive)
| ClearInterval (line : nat) (id : positive)
| GetUserMedia
| AddEventListener (c : closure)
| DetectForVideo (h : FaceLandmarker)
| ClearRect (w h : Z)
| DrawImage (w h : Z)
| FillArc (p : Landmark)
| RequestAnimationFrame (c : closure).

(** Exceptions that escape a callback: a property read on a [null] ref
    ([line] is the source line), or a rejected detection call. *)
Inductive exn :=
| TypeError (line : nat)
| DetectionError.

(** The hidden video element: no stream asked for, [getUserMedia] pending,
    stream attached as [srcObject], first frame loaded, or the assignment
    of line 64 failed. *)
Inductive media_state := Idle | Requested | Attached | Loaded | Failed.

Record state := mkState {
  (* useState cells, lines 11-14 *)
  timer : Z;
  timerRunning : bool;
  faceLandmarker : option FaceLandmarker;
  isStarted : bool;
  (* the component instance *)
  mounted : bool;
  interval : option positive;   (* the local of line 39 held by the installed cleanup *)
  (* browser timers *)
  nextId : positive;
  intervals : list positive;    (* live intervals *)
  (* the video element *)
  media : media_state;
  listeners : list closure;     (* 'loadeddata' listeners *)
  (* the frame loop *)
  rafQueue : list closure;      (* callbacks passed to requestAnimationFrame *)
  pending : list closure;       (* detectFace activations suspended at the await of line 77 *)
  (* observable output *)
  log : list call;
  uncaught : list exn
}.

Definition with_timer v s :=
  mkState v (timerRunning s) (faceLandmarker s) (isStarted s) (mounted s)
    (interval s) (nextId s) (intervals s) (media s) (listeners s)
    (rafQueue s) (pending s) (log s) (uncaught s).
Definition with_timerRunning v s :=
  mkState (timer s) v (faceLandmarker s) (isStarted s) (mounted s)
    (interval s) (nextId s) (intervals s) (media s) (listeners s)
    (rafQueue s) (pending s) (log s) (uncaught s).
Definition with_faceLandmarker v s :=
  mkState (timer s) (timerRunning s) v (isStarted s) (mounted s)
    (interval s) (nextId s) (intervals s) (media s) (listeners s)
    (rafQueue s) (pending s) (log s) (uncaught s).
Definition with_isStarted v s :=
  mkState (timer s) (timerRunning s) (faceLandmarker s) v (mounted s)
    (interval s) (nextId s) (intervals s) (media s) (listeners s)
    (rafQueue s) (pending s) (log s) (uncaught s).
Definition with_mounted v s :=
  mkState (timer s) (timerRunning s) (faceLandmarker s) (isStarted s) v
    (interval s) (nextId s) (intervals s) (media s) (listeners s)
    (rafQueue s) (pending s) (log s) (uncaught s).
Definition with_interval v s :=
  mkState (timer s) (timerRunning s) (faceLandmarker s) (isStarted s)
    (mounted s) v (nextId s) (intervals s) (media s) (listeners s)
    (rafQueue s) (pending s) (log s) (uncaught s).
Definition with_nextId v s :=
  mkState (timer s) (timerRunning s) (faceLandmarker s) (isStarted s)
    (mounted s) (interval s) v (intervals s) (media s) (listeners s)
    (rafQueue s) (pending s) (log s) (uncaught s).
Definition with_intervals v s :=
  mkState (timer s) (timerRunning s) (faceLandmarker s) (isStarted s)
    (mounted s) (interval s) (nextId s) v (media s) (listeners s)
    (rafQueue s) (pending s) (log s) (uncaught s).
Definition with_media v s :=
  mkState (timer s) (timerRunning s) (faceLandmarker s) (isStarted s)
    (mounted s) (interval s) (nextId s) (intervals s) v (listeners s)
    (rafQueue s) (pending s) (log s) (uncaught s).
Definition with_listeners v s :=
  mkState (timer s) (timerRunning s) (faceLandmarker s) (isStarted s)
    (mounted s) (interval s) (nextId s) (intervals s) (media s) v
    (rafQueue s) (pending s) (log s) (uncaught s).
Definition with_rafQueue v s :=
  mkState (timer s) (timerRunning s) (faceLandmarker s) (isStarted s)
    (mounted s) (interval s) (nextId s) (intervals s) (media s) (listeners s)
    v (pending s) (log s) (uncaught s).
Definition with_pending v s :=
  mkState (timer s) (timerRunning s) (faceLandmarker s) (isStarted s)
    (mounted s) (interval s) (nextId s) (intervals s) (media s) (listeners s)
    (rafQueue s) v (log s) (uncaught s).
Definition with_log v s :=
  mkState (timer s) (timerRunning s) (faceLandmarker s) (isStarted s)
    (mounted s) (interval s) (nextId s) (intervals s) (media s) (listeners s)
    (rafQueue s) (pending s) v (uncaught s).
Definition with_uncaught v s :=
  mkState (timer s) (timerRunning s) (faceLandmarker s) (isStarted s)
    (mounted s) (interval s) (nextId s) (intervals s) (media s) (listeners s)
    (rafQueue s) (pending s) (log s) v.

(** *** React and browser primitives *)

(** A state setter of [useState]; React drops updates of an unmounted
    component. *)
Definition setTimer (f : Z -> Z) (s : state) : state :=
  if mounted s then with_timer (f (timer s)) s else s.
Definition setTimerRunning (b : bool) (s : state) : state :=
  if mounted s then with_timerRunning b s else s.
Definition setFaceLandmarker (h : option FaceLandmarker) (s : state) : state :=
  if mounted s then with_faceLandmarker h s else s.
Definition setIsStarted (b : bool) (s : state) : state :=
  if mounted s then with_isStarted b s else s.

Definition emit (c : call) (s : state) : state :=
  with_log (log s ++ [c]) s.

Definition throw (e : exn) (s : state) : state :=
  with_uncaught (uncaught s ++ [e]) s.

(** [setInterval (callback, 1000)]: the browser hands out a fresh positive
    handle, which is [nextId] of the state before the call. *)
Definition setInterval (s : state) : state :=
  let id := nextId s in
  emit (SetInterval id)
    (with_intervals (intervals s ++ [id]) (with_nextId (Pos.succ id) s)).

Definition clearInterval (line : nat) (id : positive) (s : state) : state :=
  emit (ClearInterval line id)
    (with_intervals (filter (fun i => negb (Pos.eqb i id)) (intervals s)) s).

Definition requestAnimationFrame (c : closure) (s : state) : state :=
  emit (RequestAnimationFrame c) (with_rafQueue (rafQueue s ++ [c]) s).

(** [videoRef.current] is the video element while the component is mounted
    (line 140) and [null] afterwards; [canvasRef.current] is the canvas
    only while it is rendered, that is while mounted and started
    (lines 143-145). *)
Definition videoRef (s : state) : bool := mounted s.
Definition canvasRef (s : state) : bool := mounted s && isStarted s.

Definition canvasWidth : Z := 840.
Definition canvasHeight : Z := 680.

(** *** The timer effect (lines 37-57) *)

(** The body of the effect, lines 39-50, for a given initial value of the
    local [interval]; it ends by installing the cleanup, which holds the
    local. *)
Definition timerEffect_from (interval0 : option positive) (s : state) : state :=
  if timerRunning s then
    (* lines 42-44 *)
    with_interval (Some (nextId s)) (setInterval s)
  else if negb (timerRunning s) && negb (timer s =? 0) then
    (* lines 47-49 *)
    match interval0 with
    | Some i => with_interval interval0 (clearInterval 48 i s)
    | None => with_interval interval0 s
    end
  else with_interval interval0 s.

(** Line 39: [let interval = null]. *)
Definition timerEffect (s : state) : state := timerEffect_from None s.

(** The cleanup returned at lines 51-56. *)
Definition timerCleanup (s : state) : state :=
  match interval s with
  | Some i => clearInterval 54 i s
  | None => s
  end.

Definition same_deps (old : bool * Z) (s : state) : bool :=
  Bool.eqb (fst old) (timerRunning s) && (snd old =? timer s).

(** After a callback has run React re-renders; the effect has the
    dependency list [[timerRunning, timer]] (line 57), so when one of the
    two changed the installed cleanup runs and then the effect body.
    [old] holds the two values of the previous render. *)
Definition commit (old : bool * Z) (s : state) : state :=
  if mounted s then
    if same_deps old s then s else timerEffect (timerCleanup s)
  else s.

(** *** The frame loop (lines 70-101) *)

(** [detectFace] up to the [await] of line 77. *)
Definition detectFace (c : closure) (s : state) : state :=
  match captured c with
  | None => s                                        (* line 72 *)
  | Some h =>
      if canvasRef s then                            (* line 74 *)
        with_pending (pending s ++ [c]) (emit (DetectForVideo h) s)
      else throw (TypeError 74) s
  end.

(** [detectFace] from the [await] on, lines 79-99, once the detection call
    has produced [faceLandmarks]. *)
Definition detectFace_resume (c : closure) (faceLandmarks : list (list Landmark))
  (s : state) : state :=
  if canvasRef s then                                (* line 79 *)
    let s1 := emit (ClearRect canvasWidth canvasHeight) s in
    let s2 := emit (DrawImage canvasWidth canvasHeight) s1 in
    let s3 :=
      match faceLandmarks with
      | landmarks :: _ =>                            (* lines 82-94 *)
          setTimerRunning true
            (fold_left (fun st p => emit (FillArc p) st) landmarks s2)
      | [] => setTimerRunning false s2               (* line 96 *)
      end in
    requestAnimationFrame c s3                       (* line 99 *)
  else throw (TypeError 79) s.

(** *** Start (lines 59-111) *)

Definition handleStart (s : state) : state :=
  let s1 := setIsStarted true s in                   (* line 109 *)
  let s2 := with_media Requested (emit GetUserMedia s1) in   (* lines 63, 68 *)
  let c := mkClosure (faceLandmarker s) in           (* lines 70-101 *)
  if videoRef s2 then                                (* lines 103-105 *)
    emit (AddEventListener c) (with_listeners (listeners s2 ++ [c]) s2)
  else s2.

(** *** Events *)

Inductive event :=
| DetectorLoaded (h : FaceLandmarker)   (* loadFaceLandmarker reaches line 31 *)
| ClickStart                            (* the Start button is pressed *)
| StreamGranted                         (* getUserMedia resolves, lines 64-65 *)
| LoadedData                            (* the video fires 'loadeddata' *)
| AnimationFrame                        (* the browser runs the frame callbacks *)
| DetectionResolved (faceLandmarks : list (list Landmark))
| DetectionRejected
| Tick                                  (* 1000 ms pass on the live intervals *)
| Unmount.

Definition handle (e : event) (s : state) : state :=
  match e with
  | DetectorLoaded h =>
      match faceLandmarker s with
      | None => setFaceLandmarker (Some h) s
      | Some _ => s
      end
  | ClickStart =>
      (* the button exists only while [!isStarted], line 116 *)
      if mounted s && negb (isStarted s) then handleStart s else s
  | StreamGranted =>
      match media s with
      | Requested =>
          if videoRef s then with_media Attached s
          else throw (TypeError 64) (with_media Failed s)
      | _ => s
      end
  | LoadedData =>
      (* fired once, when the first frame of the attached stream arrives *)
      match media s with
      | Attached =>
          fold_left (fun st c => detectFace c st) (listeners s)
            (with_media Loaded s)
      | _ => s
      end
  | AnimationFrame =>
      fold_left (fun st c => detectFace c st) (rafQueue s)
        (with_rafQueue [] s)
  | DetectionResolved r =>
      match pending s with
      | c :: rest => detectFace_resume c r (with_pending rest s)
      | [] => s
      end
  | DetectionRejected =>
      match pending s with
      | c :: rest => throw DetectionError (with_pending rest s)
      | [] => s
      end
  | Tick =>
      (* line 43, once for every live interval *)
      fold_left (fun st _ => setTimer (fun prevTimer => prevTimer - 1) st)
        (intervals s) s
  | Unmount =>
      if mounted s then with_interval None (with_mounted false (timerCleanup s))
      else s
  end.

Definition step (s : state) (e : event) : state :=
  commit (timerRunning s, timer s) (handle e s).

Definition run (s : state) (tr : list event) : state :=
  fold_left step tr s.

(** The component after its first render: the state of lines 11-14, then
    the timer effect. *)
Definition first_render : state :=
  mkState (30 * 60) false None false true None 1%positive [] Idle [] [] []
    [] [].

Definition init : state := timerEffect first_render.

(** *** Observations *)

Definition is_clear_at (line : nat) (c : call) : bool :=
  match c with
  | ClearInterval l _ => Nat.eqb l line
  | _ => false
  end.

Definition is_detect (c : call) : bool :=
  match c with DetectForVideo _ => true | _ => false end.

Definition is_canvas_op (c : call) : bool :=
  match c with
  | ClearRect _ _ | DrawImage _ _ | FillArc _ => true
  | _ => false
  end.

Definition is_tick (e : event) : bool :=
  match e with Tick => true | _ => false end.

(** The frame loop is alive: an activation is suspended at the detection
    call or a frame callback is scheduled. *)
Definition loop_alive (s : state) : bool :=
  negb (Nat.eqb (List.length (pending s) + List.length (rafQueue s)) 0).

(** A detection outcome as the specification has it, and the result the
    detector delivers for it. *)
Inductive outcome := present | absent.

Definition results_of (o : outcome) : list (list Landmark) :=
  match o with
  | present => [[0%nat]]
  | absent => []
  end.

(** One second of the frame loop: the detection call resolves with the
    outcome, the loop re-arms and issues its next call, and the second
    ends with a timer tick. *)
Definition second (o : outcome) : list event :=
  [DetectionResolved (results_of o); AnimationFrame; Tick].

(** The frame loop is running with a detector: mounted and started, one
    activation suspended at the detection call, nothing else scheduled. *)
Definition awaiting (s : state) : bool :=
  mounted s && isStarted s &&
  match pending s, rafQueue s with
  | [c], [] => match captured c with Some _ => true | None => false end
  | _, _ => false
  end.

Definition is_present (o : outcome) : bool :=
  match o with present => true | absent => false end.

Definition count_present (os : list outcome) : Z :=
  Z.of_nat (List.length (filter is_present os)).

(** *** The shape of the frame loop along a run *)

Definition is_loaded (m : media_state) : bool :=
  match m with Loaded => true | _ => false end.

Definition is_idle (m : media_state) : bool :=
  match m with Idle => true | _ => false end.

(** A closure holds either no detector or the one of the state. *)
Definition captured_ok (f : option FaceLandmarker) (c : closure) : bool :=
  match captured c, f with
  | None, _ => true
  | Some h, Some h' => Nat.eqb h h'
  | Some _, None => false
  end.

(** The number of detection calls that have not resolved yet. *)
Definition outstanding (s : state) : nat := List.length (pending s).

Definition loop_ok (s : state) : bool :=
  (outstanding s + List.length (rafQueue s) <=? 1)%nat
  && (is_loaded (media s)
      || (outstanding s + List.length (rafQueue s) <=? 0)%nat)
  && (List.length (listeners s) <=? 1)%nat
  && (isStarted s
      || ((List.length (listeners s) <=? 0)%nat && is_idle (media s)))
  && forallb (captured_ok (faceLandmarker s))
       (listeners s ++ rafQueue s ++ pending s).

(** What the frame loop and the readout see of the state. *)
Definition loop_view (s : state) :=
  (mounted s, isStarted s, pending s, rafQueue s, timerRunning s, timer s).

(** *** The timer side of the state *)

(** The part of the state that the timer effect reads and writes. *)
Definition timer_side (s : state) :=
  (timer s, timerRunning s, mounted s, interval s, nextId s, intervals s).

Definition opt_list (o : option positive) : list positive :=
  match o with Some i => [i] | None => [] end.

Definition is_some (o : option positive) : bool :=
  match o with Some _ => true | None => false end.

(** While the component is mounted the effect holds an interval exactly
    when [timerRunning], and that interval is the only live one. *)
Record TimerInv (s : state) : Prop := {
  inv_intervals : intervals s = opt_list (interval s);
  inv_running : is_some (interval s) = mounted s && timerRunning s
}.

(** *** What a run is asked about *)

(** Every [clearInterval] so far came from the cleanup, line 54. *)
Definition from_cleanup (c : call) : bool :=
  match c with
  | ClearInterval line _ => Nat.eqb line 54
  | _ => true
  end.

Definition cleared_by_cleanup_only (s : state) : bool :=
  forallb from_cleanup (log s).

(** A closure that captured [null] for the detector. *)
Definition no_detector (c : closure) : bool :=
  match captured c with None => true | Some _ => false end.

Definition detect_calls (s : state) : list call := filter is_detect (log s).

Definition canvas_calls (s : state) : list call := filter is_canvas_op (log s).

(** Before any detection call: started, every listener without a detector,
    nothing suspended or scheduled, no call to [detectForVideo] made. *)
Definition never_armed (s : state) : bool :=
  isStarted s
  && forallb no_detector (listeners s)
  && (List.length (pending s) + List.length (rafQueue s) <=? 0)%nat
  && (List.length (detect_calls s) <=? 0)%nat.

(** An invocation of the frame callbacks: by the video or by the browser. *)
Definition is_frame_tick (e : event) : bool :=
  match e with LoadedData | AnimationFrame => true | _ => false end.

(** The React state, the browser timers and the calls made so far. *)
Definition core (s : state) :=
  (timer s, timerRunning s, faceLandmarker s, isStarted s, mounted s,
   interval s, nextId s, intervals s, log s).

(** Detector ready, Start pressed, camera granted, first frame loaded. *)
Definition start_up (h : FaceLandmarker) : list event :=
  [DetectorLoaded h; ClickStart; StreamGranted; LoadedData].

(** The number of one-second periods that elapse in a trace. *)
Definition ticks (tr : list event) : Z :=
  Z.of_nat (List.length (filter is_tick tr)).

End Component.

(** ** More observations on the component *)

Module Observations.
Import Display Component.

(** *** What is rendered (lines 113-152) *)

(** The Start button (lines 116-137), the hidden video (line 140), the
    canvas with its size (lines 143-145) and the text of the readout
    (lines 147-150). *)
Record view := mkView {
  start_button : bool;
  video_element : bool;
  canvas_element : option (Z * Z);
  readout : string
}.

Definition render (s : state) : view :=
  mkView (negb (isStarted s)) true
    (if isStarted s then Some (canvasWidth, canvasHeight) else None)
    ("Time remaining: " ++ display (timer s))%string.

(** *** Reading a readout back *)

(** The minutes field: what precedes the first colon. *)
Fixpoint minutes_field (s : string) : string :=
  match s with
  | EmptyString => EmptyString
  | String c rest =>
      if Ascii.eqb c ":" then EmptyString else String c (minutes_field rest)
  end.

(** Reads a decimal numeral, with or without sign and leading zeros. *)
Definition parseZ (s : string) : option Z :=
  option_map Z.of_int (NilZero.int_of_string s).

(** Not part of the component: the number of seconds that a readout
    stands for, used to state that readouts are unambiguous.  The minutes
    are a floor and the seconds a signed remainder, so a negative seconds
    field belongs to the minute above the one shown. *)
Definition read_back (s : string) : option Z :=
  match parseZ (minutes_field s), parseZ (seconds_field s) with
  | Some m, Some r => Some (if r <? 0 then 60 * (m + 1) + r else 60 * m + r)
  | _, _ => None
  end.

(** *** Kinds of events and of calls *)

Definition is_resolution (e : event) : bool :=
  match e with DetectionResolved _ => true | _ => false end.

Definition is_detector_loaded (e : event) : bool :=
  match e with DetectorLoaded _ => true | _ => false end.

Definition is_click (e : event) : bool :=
  match e with ClickStart => true | _ => false end.

Definition is_unmount (e : event) : bool :=
  match e with Unmount => true | _ => false end.

Definition is_set (c : call) : bool :=
  match c with SetInterval _ => true | _ => false end.

Definition is_clear (c : call) : bool :=
  match c with ClearInterval _ _ => true | _ => false end.

Definition is_raf (c : call) : bool :=
  match c with RequestAnimationFrame _ => true | _ => false end.

Definition is_clearRect (c : call) : bool :=
  match c with ClearRect _ _ => true | _ => false end.

Definition is_drawImage (c : call) : bool :=
  match c with DrawImage _ _ => true | _ => false end.

Definition is_getUserMedia (c : call) : bool :=
  match c with GetUserMedia => true | _ => false end.

Definition is_addEventListener (c : call) : bool :=
  match c with AddEventListener _ => true | _ => false end.

Definition count_calls (p : call -> bool) (s : state) : nat :=
  List.length (filter p (log s)).

(** The browser calls that the callback of an event makes: Start asks for
    the camera and registers the listener (lines 63, 104), a tick of the
    frame loop calls the detector (line 77), its continuation draws and
    re-arms (lines 79-99), the teardown runs the cleanup (line 54). *)
Definition may_call (e : event) (c : call) : bool :=
  match e, c with
  | ClickStart, (GetUserMedia | AddEventListener _) => true
  | (LoadedData | AnimationFrame), DetectForVideo _ => true
  | DetectionResolved _,
    (ClearRect _ _ | DrawImage _ _ | FillArc _ | RequestAnimationFrame _) => true
  | Unmount, ClearInterval line _ => Nat.eqb line 54
  | _, _ => false
  end.

(** The calls of the timer effect when it runs after a callback
    (lines 42, 54). *)
Definition effect_call (c : call) : bool :=
  match c with
  | SetInterval _ => true
  | ClearInterval line _ => Nat.eqb line 54
  | _ => false
  end.

(** *** Views and invariants *)

(** The four [useState] cells. *)
Definition cells (s : state) :=
  (timer s, timerRunning s, faceLandmarker s, isStarted s).

(** The outcome of the last second, [before] when there was none. *)
Definition last_present (os : list outcome) (before : bool) : bool :=
  fold_left (fun _ o => is_present o) os before.

(** Every interval that was set has been cleared, the live ones apart. *)
Definition intervals_balanced (s : state) : Prop :=
  count_calls is_set s = (count_calls is_clear s + List.length (intervals s))%nat.

(** A detection call that came to nothing: its continuation found the
    canvas gone (line 79), or the call was rejected. *)
Definition is_lost_detection (e : exn) : bool :=
  match e with
  | TypeError line => Nat.eqb line 79
  | DetectionError => true
  end.

Definition lost_detections (s : state) : nat :=
  List.length (filter is_lost_detection (uncaught s)).

(** Every detection call is outstanding, or has drawn its frame and
    re-armed the loop, or is lost; a frame is cleared, drawn and followed
    by a re-arm. *)
Record Accounted (s : state) : Prop := {
  acc_detect :
    count_calls is_detect s
    = (outstanding s + count_calls is_raf s + lost_detections s)%nat;
  acc_clear : count_calls is_clearRect s = count_calls is_raf s;
  acc_draw : count_calls is_drawImage s = count_calls is_raf s
}.

Definition acct_view (s : state) :=
  (count_calls is_detect s, count_calls is_raf s, count_calls is_clearRect s,
   count_calls is_drawImage s, outstanding s, lost_detections s).

Definition once (b : bool) : nat := if b then 1%nat else 0%nat.

(** The camera is asked for and the listener registered exactly when
    Start has been pressed. *)
Record StartedOnce (s : state) : Prop := {
  once_camera : count_calls is_getUserMedia s = once (isStarted s);
  once_listener : count_calls is_addEventListener s = once (isStarted s);
  once_registered : List.length (listeners s) = once (isStarted s)
}.

(** The frame loop has ended, or was armed without a detector: started,
    nothing suspended or scheduled, and 'loadeddata' either has fired or
    will find listeners without a detector only. *)
Definition inert (s : state) : bool :=
  isStarted s
  && (is_loaded (media s) || forallb no_detector (listeners s))
  && (List.length (pending s) + List.length (rafQueue s) <=? 0)%nat.

(** As long as no detection call was made the countdown is where it
    started. *)
Definition untouched (s : state) : Prop :=
  detect_calls s = [] -> timerRunning s = false /\ timer s = 30 * 60.

(** A detection call uses the detector of the state. *)
Definition uses_detector (f : option FaceLandmarker) (c : call) : bool :=
  match c, f with
  | DetectForVideo h, Some h' => Nat.eqb h h'
  | DetectForVideo _, None => false
  | _, _ => true
  end.

Definition detector_consistent (s : state) : bool :=
  forallb (uses_detector (faceLandmarker s)) (log s).


End Observations.

(** ** The second copy of the component (lines 156-282) *)

Module Component2.
Import Component Observations.

(** The second copy has no Start button: it asks for the camera when it
    mounts, always renders the canvas, registers the 'loadeddata' listener
    from an effect that depends on [faceLandmarker], and draws the face
    with the library's [DrawingUtils].  It shares the state record of the
    first copy; the cell [isStarted] has no counterpart here and is never
    read or written.  Line numbers are those of the second copy. *)

(** The connection sets of [FaceLandmarker] that are drawn. *)
Inductive connections :=
| FACE_LANDMARKS_TESSELATION
| FACE_LANDMARKS_RIGHT_EYE
| FACE_LANDMARKS_RIGHT_EYEBROW
| FACE_LANDMARKS_LEFT_EYE
| FACE_LANDMARKS_LEFT_EYEBROW
| FACE_LANDMARKS_FACE_OVAL
| FACE_LANDMARKS_LIPS
| FACE_LANDMARKS_RIGHT_IRIS
| FACE_LANDMARKS_LEFT_IRIS.

(** The style argument of [drawConnectors]. *)
Record style := mkStyle { color : string; lineWidth : option Z }.

(** Calls on [DrawingUtils]. *)
Inductive drawing_call :=
| NewDrawingUtils
| DrawConnectors (landmarks : list Landmark) (set : connections) (st : style).

(** The state of the first copy and the calls on [DrawingUtils], each
    with the number of browser calls made before it. *)
Record state2 := mkState2 {
  base : state;
  drawing : list (nat * drawing_call)
}.

Definition on_base (f : state -> state) (s : state2) : state2 :=
  mkState2 (f (base s)) (drawing s).

Definition draw (d : drawing_call) (s : state2) : state2 :=
  mkState2 (base s) (drawing s ++ [(List.length (log (base s)), d)]).

(** [canvasRef.current]: the canvas is rendered unconditionally
    (line 272), so it is there exactly while the component is mounted. *)
Definition canvasRef (s : state) : bool := mounted s.

(** *** The effects *)

(** Lines 170-198, once at mount: the loader starts (it ends in
    [setFaceLandmarker], line 185) and [startWebcam] asks for the camera
    (line 192). *)
Definition mountEffect (s : state) : state :=
  with_media Requested (emit GetUserMedia s).

(** Lines 200-220, the same text as in the first copy. *)
Definition timerEffect_from (interval0 : option positive) (s : state) : state :=
  if timerRunning s then
    (* lines 205-207 *)
    with_interval (Some (nextId s)) (setInterval s)
  else if negb (timerRunning s) && negb (timer s =? 0) then
    (* lines 210-212 *)
    match interval0 with
    | Some i => with_interval interval0 (clearInterval 211 i s)
    | None => with_interval interval0 s
    end
  else with_interval interval0 s.

Definition timerEffect (s : state) : state := timerEffect_from None s.

Definition timerCleanup (s : state) : state :=
  match interval s with
  | Some i => clearInterval 217 i s
  | None => s
  end.

(** Lines 259-264: registers the [detectFace] of the current render,
    which holds the [faceLandmarker] of that render; there is no cleanup,
    so listeners are never removed. *)
Definition armingEffect (s : state) : state :=
  let c := mkClosure (faceLandmarker s) in
  if videoRef s then
    emit (AddEventListener c) (with_listeners (listeners s ++ [c]) s)
  else s.

Definition same_detector (a b : option FaceLandmarker) : bool :=
  match a, b with
  | None, None => true
  | Some x, Some y => Nat.eqb x y
  | _, _ => false
  end.

(** The effects that run after a callback, in the order of the source:
    the timer effect when [timerRunning] or [timer] changed (line 220),
    the arming effect when [faceLandmarker] changed (line 264).  [old]
    holds the values of the previous render. *)
Definition commit2 (old : bool * Z * option FaceLandmarker) (s : state) : state :=
  if mounted s then
    let s1 :=
      if same_deps (fst old) s then s else timerEffect (timerCleanup s) in
    if same_detector (snd old) (faceLandmarker s1) then s1
    else armingEffect s1
  else s.

(** *** The frame loop (lines 222-257) *)

(** [detectFace] up to the [await] of line 229. *)
Definition detectFace (c : closure) (s : state2) : state2 :=
  match captured c with
  | None => s                                        (* line 224 *)
  | Some h =>
      if canvasRef (base s) then                     (* line 226 *)
        on_base (fun b => with_pending (pending b ++ [c])
                            (emit (DetectForVideo h) b)) s
      else on_base (throw (TypeError 226)) s
  end.

Definition drawFace (landmarks : list Landmark) (s : state2) : state2 :=
  let s0 := draw NewDrawingUtils s in                (* line 237 *)
  let d set col w st := draw (DrawConnectors landmarks set (mkStyle col w)) st in
  let s1 := d FACE_LANDMARKS_TESSELATION "#C0C0C070"%string (Some 1) s0 in
  let s2 := d FACE_LANDMARKS_RIGHT_EYE "#FF3030"%string None s1 in
  let s3 := d FACE_LANDMARKS_RIGHT_EYEBROW "#FF3030"%string None s2 in
  let s4 := d FACE_LANDMARKS_LEFT_EYE "#30FF30"%string None s3 in
  let s5 := d FACE_LANDMARKS_LEFT_EYEBROW "#30FF30"%string None s4 in
  let s6 := d FACE_LANDMARKS_FACE_OVAL "#E0E0E0"%string None s5 in
  let s7 := d FACE_LANDMARKS_LIPS "#E0E0E0"%string None s6 in
  let s8 := d FACE_LANDMARKS_RIGHT_IRIS "#FF3030"%string None s7 in
  d FACE_LANDMARKS_LEFT_IRIS "#30FF30"%string None s8.     (* lines 240-248 *)

(** [detectFace] from the [await] on, lines 231-255. *)
Definition detectFace_resume (c : closure) (faceLandmarks : list (list Landmark))
  (s : state2) : state2 :=
  if canvasRef (base s) then                         (* line 231 *)
    let s1 := on_base (emit (ClearRect canvasWidth canvasHeight)) s in
    let s2 := on_base (emit (DrawImage canvasWidth canvasHeight)) s1 in
    let s3 :=
      match faceLandmarks with
      | landmarks :: _ =>                            (* lines 234-250 *)
          on_base (setTimerRunning true) (drawFace landmarks s2)
      | [] => on_base (setTimerRunning false) s2     (* line 252 *)
      end in
    on_base (requestAnimationFrame c) s3             (* line 255 *)
  else on_base (throw (TypeError 231)) s.

(** *** Events *)

(** The events of the first copy; there is no Start button, so
    [ClickStart] does nothing. *)
Definition handle2 (e : event) (s : state2) : state2 :=
  match e with
  | DetectorLoaded h =>
      match faceLandmarker (base s) with
      | None => on_base (setFaceLandmarker (Some h)) s      (* line 185 *)
      | Some _ => s
      end
  | ClickStart => s
  | StreamGranted =>
      match media (base s) with
      | Requested =>
          if videoRef (base s) then on_base (with_media Attached) s  (* lines 193-194 *)
          else on_base (fun b => throw (TypeError 193) (with_media Failed b)) s
      | _ => s
      end
  | LoadedData =>
      match media (base s) with
      | Attached =>
          fold_left (fun st c => detectFace c st) (listeners (base s))
            (on_base (with_media Loaded) s)
      | _ => s
      end
  | AnimationFrame =>
      fold_left (fun st c => detectFace c st) (rafQueue (base s))
        (on_base (with_rafQueue []) s)
  | DetectionResolved r =>
      match pending (base s) with
      | c :: rest => detectFace_resume c r (on_base (with_pending rest) s)
      | [] => s
      end
  | DetectionRejected =>
      match pending (base s) with
      | c :: rest =>
          on_base (fun b => throw DetectionError (with_pending rest b)) s
      | [] => s
      end
  | Tick =>
      on_base (fun b =>
        fold_left (fun st _ => setTimer (fun prevTimer => prevTimer - 1) st)
          (intervals b) b) s                          (* line 206 *)
  | Unmount =>
      if mounted (base s) then
        on_base (fun b => with_interval None (with_mounted false (timerCleanup b))) s
      else s
  end.

Definition step2 (s : state2) (e : event) : state2 :=
  let b := base s in
  on_base (commit2 (timerRunning b, timer b, faceLandmarker b)) (handle2 e s).

Definition run2 (s : state2) (tr : list event) : state2 :=
  fold_left step2 tr s.

(** The component after its first render and its three effects. *)
Definition first_render2 : state :=
  mkState (30 * 60) false None false true None 1%positive [] Idle [] [] []
    [] [].

Definition init2 : state2 :=
  mkState2 (armingEffect (timerEffect (mountEffect first_render2))) [].

(** *** Observations *)

(** The listeners, given the detector of the state: the one registered at
    mount, and the one registered when the detector was loaded. *)
Definition expected_listeners (f : option FaceLandmarker) : list closure :=
  mkClosure None ::
  match f with Some h => [mkClosure (Some h)] | None => [] end.

(** The shape of the frame loop along a run.  Without a detector there
    is the listener registered at mount and nothing else; with the
    detector [h] there is a second listener, which holds [h], and at most
    one activation of its [detectFace], scheduled or suspended, and none
    before 'loadeddata'. *)
Inductive loop_shape (b : state) : Prop :=
| shape_unloaded :
    faceLandmarker b = None ->
    listeners b = expected_listeners None ->
    rafQueue b = [] -> pending b = [] ->
    loop_shape b
| shape_idle (h : FaceLandmarker) :
    faceLandmarker b = Some h ->
    listeners b = expected_listeners (Some h) ->
    rafQueue b = [] -> pending b = [] ->
    loop_shape b
| shape_scheduled (h : FaceLandmarker) :
    faceLandmarker b = Some h ->
    listeners b = expected_listeners (Some h) ->
    media b = Loaded ->
    rafQueue b = [mkClosure (Some h)] -> pending b = [] ->
    loop_shape b
| shape_suspended (h : FaceLandmarker) :
    faceLandmarker b = Some h ->
    listeners b = expected_listeners (Some h) ->
    media b = Loaded ->
    rafQueue b = [] -> pending b = [mkClosure (Some h)] ->
    loop_shape b.

(** What the effects leave alone. *)
Definition loop_fields (b : state) :=
  (faceLandmarker b, media b, rafQueue b, pending b).

(** 'loadeddata' has fired and no activation of [detectFace] is scheduled
    or suspended. *)
Definition inert2 (b : state) : bool :=
  is_loaded (media b)
  && (List.length (pending b) + List.length (rafQueue b) <=? 0)%nat.

(** The drawing call was made right after [drawImage] painted the whole
    canvas, with no browser call in between. *)
Definition over_painted_frame (lg : list call) (p : nat * drawing_call) : bool :=
  match fst p with
  | O => false
  | S n =>
      match nth_error lg n with
      | Some (DrawImage w h) => (w =? canvasWidth) && (h =? canvasHeight)
      | _ => false
      end
  end.

Definition is_new_utils (p : nat * drawing_call) : bool :=
  match snd p with NewDrawingUtils => true | _ => false end.

Definition no_loader_event (tr : list event) : bool :=
  forallb (fun e => negb (is_detector_loaded e)) tr.

End Component2.

Module DisplayFacts.
Import Display.
Local Open Scope string_scope.

Example display_1800 : display 1800 = "30:00".
Proof. reflexivity. Qed.

Example display_59 : display 59 = "0:59".
Proof. reflexivity. Qed.

Example display_0 : display 0 = "0:00".
Proof. reflexivity. Qed.

Example display_minus_60 : display (-60) = "-1:00".
Proof. reflexivity. Qed.

Lemma rem_is_mod_nonneg (s : Z) : 0 <= s -> Z.rem s 60 = s mod 60.
Proof. intros Hs. apply Z.rem_mod_nonneg; lia. Qed.

(** Below 60, [padStart 2 "0"] of the decimal numeral is the two-digit
    rendering. *)
Lemma padStart_pad2_nat (n : nat) :
  (n < 60)%nat ->
  padStart 2 "0" (toString (Z.of_nat n)) = pad2 (Z.of_nat n).
Proof.
  intros Hn.
  do 60 (destruct n as [|n]; [reflexivity|]).
  lia.
Qed.

Lemma padStart_pad2 (r : Z) :
  0 <= r < 60 -> padStart 2 "0" (toString r) = pad2 r.
Proof.
  intros Hr.
  rewrite <- (Z2Nat.id r) by lia.
  apply padStart_pad2_nat. lia.
Qed.

Lemma toString_negative (n : Z) :
  n < 0 -> exists rest, toString n = String "-" rest.
Proof.
  intros Hn. destruct n as [|p|p]; try lia.
  unfold toString. cbn. eauto.
Qed.

Lemma is_M_SS_minus (rest : string) : is_M_SS (String "-" rest) = false.
Proof. reflexivity. Qed.

Lemma seconds_field_uint (d : Decimal.uint) (x : string) :
  seconds_field (NilEmpty.string_of_uint d ++ x) = seconds_field x.
Proof. induction d; cbn; auto. Qed.

Lemma seconds_field_toString (n : Z) (x : string) :
  seconds_field (toString n ++ ":" ++ x) = x.
Proof.
  unfold toString.
  destruct n as [|p|p]; cbn [Z.to_int NilZero.string_of_int]; [reflexivity| |];
    unfold NilZero.string_of_uint;
    destruct (Pos.to_uint p) eqn:E; try reflexivity;
    rewrite <- E; cbn [append seconds_field Ascii.eqb];
    try (rewrite seconds_field_uint; reflexivity).
Qed.

Lemma seconds_field_display (s : Z) :
  seconds_field (display s) = padStart 2 "0" (toString (Z.rem s 60)).
Proof. apply seconds_field_toString. Qed.

Lemma seconds_of_negative_nat (n : nat) :
  (n < 60)%nat ->
  two_digits (padStart 2 "0" (toString (- Z.of_nat n))) = (n =? 0)%nat.
Proof.
  intros Hn.
  do 60 (destruct n as [|n]; [reflexivity|]).
  lia.
Qed.

(** Below zero the seconds field is a signed number, except on the
    multiples of 60, where it is ["00"]. *)
Lemma seconds_field_of_negative (s : Z) :
  s < 0 ->
  two_digits (seconds_field (display s)) = (Z.rem s 60 =? 0)%Z.
Proof.
  intros Hs. rewrite seconds_field_display.
  assert (Hr : -60 < Z.rem s 60 <= 0).
  { pose proof (Z.rem_bound_pos_neg s 60 ltac:(lia) ltac:(lia)). lia. }
  replace (Z.rem s 60) with (- Z.of_nat (Z.to_nat (- Z.rem s 60))) at 1 by lia.
  rewrite seconds_of_negative_nat by lia.
  destruct (Z.eqb_spec (Z.rem s 60) 0) as [E|E].
  - rewrite E. reflexivity.
  - apply Nat.eqb_neq. lia.
Qed.

Lemma display_refines_spec (s : Z) : 0 <= s -> display s = display_spec s.
Proof.
  intros Hs. unfold display, display_spec.
  rewrite rem_is_mod_nonneg by exact Hs.
  rewrite padStart_pad2; [reflexivity|].
  apply Z.mod_pos_bound. lia.
Qed.

Lemma display_negative_not_M_SS (s : Z) : s < 0 -> is_M_SS (display s) = false.
Proof.
  intros Hs.
  destruct (toString_negative (s / 60)) as [rest Hrest].
  { apply Z.div_lt_upper_bound; lia. }
  unfold display. rewrite Hrest. reflexivity.
Qed.

Lemma is_M_SS_from_uint (d : Decimal.uint) (b : bool) (ss : string) :
  is_M_SS_from b (NilEmpty.string_of_uint d ++ ":" ++ ss)
  = (b || negb (is_Nil d)) && two_digits ss.
Proof.
  revert b. induction d; intros b;
    [cbn; rewrite orb_false_r; reflexivity|..];
    cbn [NilEmpty.string_of_uint append is_M_SS_from];
    (change (is_digit _) with true; cbv iota; rewrite IHd;
     cbn [is_Nil negb orb]; rewrite orb_true_r; reflexivity).
Qed.

Lemma is_M_SS_toString (n : Z) (ss : string) :
  0 <= n -> is_M_SS (toString n ++ ":" ++ ss) = two_digits ss.
Proof.
  intros Hn. unfold is_M_SS, toString.
  destruct n as [|p|p]; [reflexivity| |lia].
  cbn [Z.to_int NilZero.string_of_int]. unfold NilZero.string_of_uint.
  destruct (Pos.to_uint p) eqn:E; try reflexivity;
    rewrite <- E, is_M_SS_from_uint, E; reflexivity.
Qed.

Lemma two_digits_pad2_nat (n : nat) :
  (n < 60)%nat -> two_digits (pad2 (Z.of_nat n)) = true.
Proof.
  intros Hn.
  do 60 (destruct n as [|n]; [reflexivity|]).
  lia.
Qed.

(** From zero on the readout has the shape [M:SS]. *)
Lemma display_nonneg_is_M_SS (s : Z) : 0 <= s -> is_M_SS (display s) = true.
Proof.
  intros Hs. rewrite display_refines_spec by exact Hs.
  unfold display_spec. rewrite is_M_SS_toString by (apply Z.div_pos; lia).
  pose proof (Z.mod_pos_bound s 60 ltac:(lia)) as Hb.
  rewrite <- (Z2Nat.id (s mod 60)) by lia.
  apply two_digits_pad2_nat. lia.
Qed.

End DisplayFacts.

(** ** Facts about the component *)

Module ComponentFacts.
Import Component.

(** Runs the code on a state whose fields are known. *)
Ltac exec :=
  cbv [step commit same_deps timerEffect timerEffect_from timerCleanup
       handleStart detectFace_resume detectFace handle
       setTimer setTimerRunning setFaceLandmarker setIsStarted
       requestAnimationFrame clearInterval setInterval emit throw
       videoRef canvasRef canvasWidth canvasHeight
       with_timer with_timerRunning with_faceLandmarker with_isStarted
       with_mounted with_interval with_nextId with_intervals with_media
       with_listeners with_rafQueue with_pending with_log with_uncaught
       timer timerRunning faceLandmarker isStarted mounted interval nextId
       intervals media listeners rafQueue pending log uncaught
       captured fst snd andb orb negb Bool.eqb].

(** *** Runs *)

Lemma run_app (s : state) (tr1 tr2 : list event) :
  run s (tr1 ++ tr2) = run (run s tr1) tr2.
Proof. apply fold_left_app. Qed.

Lemma run_cons (s : state) (e : event) (tr : list event) :
  run s (e :: tr) = run (step s e) tr.
Proof. reflexivity. Qed.

(** A property kept by every step holds along every run. *)
Lemma run_invariant (P : state -> Prop) :
  (forall s e, P s -> P (step s e)) ->
  forall tr s, P s -> P (run s tr).
Proof.
  intros Hstep tr. induction tr as [|e tr IH]; intros s Hs.
  - exact Hs.
  - rewrite run_cons. apply IH, Hstep, Hs.
Qed.

(** *** What the frame loop leaves alone *)

Lemma detectFace_timer_side (c : closure) (s : state) :
  timer_side (detectFace c s) = timer_side s.
Proof.
  destruct s as [t r f st m iv n ivs md ls q pd lg un], c as [[h|]];
    [destruct m, st|]; reflexivity.
Qed.

Lemma fold_detectFace_timer_side (cs : list closure) (s : state) :
  timer_side (fold_left (fun st c => detectFace c st) cs s) = timer_side s.
Proof.
  revert s. induction cs as [|c cs IH]; intros s; cbn [fold_left].
  - reflexivity.
  - rewrite IH. apply detectFace_timer_side.
Qed.

(** The landmark points only add drawing calls. *)
Lemma fold_arc (ps : list Landmark) (s : state) :
  fold_left (fun st p => emit (FillArc p) st) ps s
  = with_log (log s ++ map FillArc ps) s.
Proof.
  revert s. induction ps as [|p ps IH]; intros s; cbn [fold_left map].
  - rewrite app_nil_r. destruct s; reflexivity.
  - rewrite IH. destruct s. exec. rewrite <- app_assoc. reflexivity.
Qed.

(** The callbacks of the live intervals: each takes one second off, when
    the component is still there. *)
Lemma fold_tick (l : list positive) (s : state) :
  fold_left (fun st _ => setTimer (fun prevTimer => prevTimer - 1) st) l s
  = if mounted s then with_timer (timer s - Z.of_nat (List.length l)) s
    else s.
Proof.
  revert s. induction l as [|i l IH]; intros s.
  - destruct s as [t r f st m]. destruct m; [|reflexivity].
    cbn [fold_left List.length]. exec. f_equal. lia.
  - cbn [fold_left]. rewrite IH.
    destruct s as [t r f st m]. destruct m; [|reflexivity].
    exec. f_equal. cbn [List.length]. lia.
Qed.

(** *** The timer effect keeps exactly one interval while running *)

Lemma TimerInv_init : TimerInv init.
Proof. split; reflexivity. Qed.

Lemma TimerInv_commit (old : bool * Z) (s : state) :
  intervals s = opt_list (interval s) ->
  (mounted s = true -> same_deps old s = true ->
   is_some (interval s) = timerRunning s) ->
  (mounted s = false -> interval s = None) ->
  TimerInv (commit old s).
Proof.
  intros Hl Hsame Hun.
  destruct s as [t r f st m iv n ivs md ls q pd lg un].
  cbn [intervals interval mounted timerRunning] in *.
  unfold commit. cbn [mounted]. destruct m.
  - destruct (same_deps old _) eqn:Hd.
    + split; cbn; auto.
    + subst ivs.
      destruct iv as [i|], r; split; exec; cbn [opt_list is_some filter];
        rewrite ?Pos.eqb_refl; try reflexivity;
        destruct (t =? 0); reflexivity.
  - rewrite (Hun eq_refl) in *. split; cbn; auto.
Qed.

Lemma same_deps_refl (s s' : state) :
  timer_side s' = timer_side s ->
  same_deps (timerRunning s, timer s) s' = true.
Proof.
  unfold timer_side, same_deps. intros H. injection H as -> -> _ _ _ _.
  cbn [fst snd]. rewrite Bool.eqb_reflx, Z.eqb_refl. reflexivity.
Qed.

Lemma TimerInv_timer_side (s s' : state) :
  timer_side s' = timer_side s -> TimerInv s -> TimerInv s'.
Proof.
  unfold timer_side. intros H [H1 H2].
  injection H as Ht Hr Hm Hi Hn Hl.
  split; rewrite ?Hl, ?Hi, ?Hm, ?Hr; assumption.
Qed.

(** A callback that leaves the timer side alone causes no effect run. *)
Lemma commit_unchanged (s s' : state) :
  timer_side s' = timer_side s ->
  commit (timerRunning s, timer s) s' = s'.
Proof.
  intros H. unfold commit. rewrite (same_deps_refl _ _ H).
  destruct (mounted s'); reflexivity.
Qed.

Lemma handle_timer_side (s : state) (e : event) :
  match e with
  | DetectionResolved _ | Tick | Unmount => True
  | _ => timer_side (handle e s) = timer_side s
  end.
Proof.
  destruct e; cbn [handle]; auto.
  - destruct s as [t r f st m]. destruct f, m; reflexivity.
  - destruct s as [t r f st m]. destruct m, st; reflexivity.
  - destruct s as [t r f st m iv n ivs md]. destruct md, m; reflexivity.
  - destruct (media s); try reflexivity.
    rewrite fold_detectFace_timer_side. destruct s; reflexivity.
  - rewrite fold_detectFace_timer_side. destruct s; reflexivity.
  - destruct s as [t r f st m iv n ivs md ls q pd]. destruct pd; reflexivity.
Qed.

Lemma timer_side_resume (c : closure) (r : list (list Landmark)) (s : state) :
  let s' := detectFace_resume c r s in
  mounted s' = mounted s /\ interval s' = interval s /\
  intervals s' = intervals s /\ timer s' = timer s /\
  (timerRunning s' = timerRunning s \/ mounted s = true).
Proof.
  unfold detectFace_resume.
  destruct r as [|lm r]; [|rewrite fold_arc];
    destruct s as [t tr f st m]; destruct m, st; cbn; auto 10.
Qed.

Lemma TimerInv_step (s : state) (e : event) :
  TimerInv s -> TimerInv (step s e).
Proof.
  intros Hinv. unfold step.
  pose proof (handle_timer_side s e) as Hside.
  destruct e;
    try (rewrite (commit_unchanged _ _ Hside);
         exact (TimerInv_timer_side _ _ Hside Hinv)).
  - (* DetectionResolved *)
    destruct Hinv as [H1 H2]. cbn [handle].
    assert (Hun : mounted s = false -> interval s = None).
    { intros Hm. rewrite Hm in H2. destruct (interval s); [discriminate|reflexivity]. }
    destruct (pending s) as [|c rest] eqn:Hp.
    + apply TimerInv_commit; auto.
      intros Hm _. rewrite H2, Hm. reflexivity.
    + destruct (timer_side_resume c faceLandmarks (with_pending rest s))
        as (Hm & Hi & Hl & Ht & Hr).
      replace (mounted (with_pending rest s)) with (mounted s) in *
        by (destruct s; reflexivity).
      replace (interval (with_pending rest s)) with (interval s) in *
        by (destruct s; reflexivity).
      replace (intervals (with_pending rest s)) with (intervals s) in *
        by (destruct s; reflexivity).
      replace (timerRunning (with_pending rest s)) with (timerRunning s) in *
        by (destruct s; reflexivity).
      apply TimerInv_commit; rewrite ?Hm, ?Hi, ?Hl; auto.
      intros Hmt Hd. unfold same_deps in Hd. cbn [fst snd] in Hd.
      apply andb_prop in Hd as [Hd _]. apply Bool.eqb_prop in Hd.
      rewrite <- Hd, H2, Hmt. reflexivity.
  - (* Tick *)
    destruct Hinv as [H1 H2]. cbn [handle]. rewrite fold_tick.
    destruct s as [t r f st m iv n ivs md ls q pd lg un].
    cbn [intervals interval mounted timerRunning] in *.
    destruct m; apply TimerInv_commit; cbn; auto; try discriminate.
    intros _. destruct iv; [discriminate|reflexivity].
  - (* Unmount *)
    destruct Hinv as [H1 H2]. cbn [handle].
    destruct s as [t r f st m iv n ivs md ls q pd lg un].
    cbn [intervals interval mounted timerRunning] in *.
    destruct m.
    + subst ivs.
      destruct iv as [i|]; split; exec; cbn [opt_list is_some filter];
        rewrite ?Pos.eqb_refl; reflexivity.
    + apply TimerInv_commit; cbn; auto; try discriminate.
      intros _. destruct iv; [discriminate|reflexivity].
Qed.

Lemma TimerInv_run (tr : list event) : TimerInv (run init tr).
Proof.
  apply (run_invariant TimerInv TimerInv_step). exact TimerInv_init.
Qed.

(** *** What an effect run leaves alone *)

Lemma loop_view_commit (old : bool * Z) (s : state) :
  loop_view (commit old s) = loop_view s.
Proof.
  destruct s as [t r f st m iv n ivs]. unfold commit. cbn [mounted].
  destruct m; [|reflexivity].
  destruct (same_deps old _); [reflexivity|].
  destruct iv, r; try reflexivity; exec; destruct (t =? 0); reflexivity.
Qed.

Lemma loop_view_step (s : state) (e : event) :
  loop_view (step s e) = loop_view (handle e s).
Proof. apply loop_view_commit. Qed.

(** *** One second of a running frame loop *)

(** The detection call resolves: the flag follows the outcome and the same
    closure is scheduled for the next frame. *)
Lemma resolve_view (s : state) (c : closure) (r : list (list Landmark)) :
  mounted s = true -> isStarted s = true ->
  pending s = [c] -> rafQueue s = [] ->
  loop_view (step s (DetectionResolved r))
  = (true, true, [], [c], match r with [] => false | _ => true end, timer s).
Proof.
  intros Hm Hs Hp Hq. rewrite loop_view_step. cbn [handle].
  rewrite Hp. unfold detectFace_resume.
  destruct r as [|lm r]; cbv beta iota; [|rewrite fold_arc];
    destruct s as [t tr f st m iv n ivs md ls q pd lg un];
    cbn [mounted isStarted pending rafQueue] in *; subst; reflexivity.
Qed.

(** The scheduled frame callback issues the next detection call. *)
Lemma frame_view (s : state) (c : closure) (h : FaceLandmarker) :
  mounted s = true -> isStarted s = true ->
  pending s = [] -> rafQueue s = [c] -> captured c = Some h ->
  loop_view (step s AnimationFrame)
  = (true, true, [c], [], timerRunning s, timer s).
Proof.
  intros Hm Hs Hp Hq Hc. rewrite loop_view_step. cbn [handle].
  destruct s as [t tr f st m iv n ivs md ls q pd lg un], c as [cf].
  cbn [mounted isStarted pending rafQueue captured] in *; subst; reflexivity.
Qed.

(** A tick of the one-second interval, in a state that a run can reach. *)
Lemma tick_view (s : state) :
  TimerInv s ->
  loop_view (step s Tick)
  = (mounted s, isStarted s, pending s, rafQueue s, timerRunning s,
     if mounted s && timerRunning s then timer s - 1 else timer s).
Proof.
  intros [H1 H2]. rewrite loop_view_step. cbn [handle].
  rewrite fold_tick, H1. rewrite <- H2.
  destruct s as [t r f st m iv n ivs].
  cbn [intervals interval mounted timerRunning timer] in *.
  destruct m, iv; cbn in H2; try discriminate H2;
    unfold loop_view; exec; cbn [opt_list is_some List.length];
    repeat f_equal; lia.
Qed.

Lemma tick_effect (s : state) :
  TimerInv s ->
  timer (step s Tick)
  = if mounted s && timerRunning s then timer s - 1 else timer s.
Proof.
  intros Hinv. pose proof (tick_view s Hinv) as H.
  unfold loop_view in H. injection H as _ _ _ _ _ H. exact H.
Qed.

Lemma second_effect (s : state) (o : outcome) :
  TimerInv s -> awaiting s = true ->
  let s' := run s (second o) in
  TimerInv s' /\ awaiting s' = true /\
  timerRunning s' = is_present o /\
  timer s' = timer s - (if is_present o then 1 else 0).
Proof.
  intros Hinv Ha s'.
  split; [apply (run_invariant TimerInv TimerInv_step), Hinv|].
  subst s'. unfold run, second. cbn [fold_left].
  unfold awaiting in Ha.
  destruct (mounted s) eqn:Hm; [|discriminate Ha].
  destruct (isStarted s) eqn:Hs; [|discriminate Ha].
  destruct (pending s) as [|c [|]] eqn:Hp; try discriminate Ha.
  destruct (rafQueue s) as [|] eqn:Hq; try discriminate Ha.
  destruct (captured c) as [h|] eqn:Hc; [clear Ha|discriminate Ha].
  pose proof (resolve_view s c (results_of o) Hm Hs Hp Hq) as V1.
  set (s1 := step s (DetectionResolved (results_of o))) in *.
  assert (Hinv1 : TimerInv s1) by (apply TimerInv_step, Hinv).
  unfold loop_view in V1. injection V1 as Hm1 Hs1 Hp1 Hq1 Hr1 Ht1.
  pose proof (frame_view s1 c h Hm1 Hs1 Hp1 Hq1 Hc) as V2.
  set (s2 := step s1 AnimationFrame) in *.
  assert (Hinv2 : TimerInv s2) by (apply TimerInv_step, Hinv1).
  unfold loop_view in V2. injection V2 as Hm2 Hs2 Hp2 Hq2 Hr2 Ht2.
  pose proof (tick_view s2 Hinv2) as V3.
  set (s3 := step s2 Tick) in *.
  unfold loop_view in V3. injection V3 as Hm3 Hs3 Hp3 Hq3 Hr3 Ht3.
  unfold awaiting.
  rewrite Hm3, Hs3, Hp3, Hq3, Hr3, Ht3, Hm2, Hs2, Hp2, Hq2, Hr2, Ht2, Hr1, Ht1, Hc.
  destruct o; cbn; repeat split; lia.
Qed.

Lemma seconds_effect (os : list outcome) (s : state) :
  TimerInv s -> awaiting s = true ->
  timer (run s (flat_map second os)) = timer s - count_present os.
Proof.
  revert s. induction os as [|o os IH]; intros s Hinv Ha.
  - cbn. unfold count_present. cbn. lia.
  - cbn [flat_map]. rewrite run_app.
    destruct (second_effect s o Hinv Ha) as (Hinv' & Ha' & _ & Ht).
    rewrite (IH _ Hinv' Ha'), Ht.
    unfold count_present. cbn [filter].
    destruct (is_present o); cbn [List.length]; lia.
Qed.

(** *** The frame loop is a single chain *)

Lemma loop_ok_init : loop_ok init = true.
Proof. reflexivity. Qed.

Lemma loop_ok_commit (old : bool * Z) (s : state) :
  loop_ok (commit old s) = loop_ok s.
Proof.
  destruct s as [t r f st m iv n ivs]. unfold commit. cbn [mounted].
  destruct m; [|reflexivity].
  destruct (same_deps old _); [reflexivity|].
  destruct iv, r; try reflexivity; exec; destruct (t =? 0); reflexivity.
Qed.

Lemma loop_ok_handle (s : state) (e : event) :
  loop_ok s = true -> loop_ok (handle e s) = true.
Proof.
  intros H.
  destruct s as [t r f st m iv n ivs md ls q pd lg un].
  destruct e; cbn [handle].
  9: { destruct m; [|exact H]. destruct iv; exact H. }
  8: { rewrite fold_tick. destruct m; exact H. }
  all: destruct ls as [|[cl] [|]], q as [|[cq] [|]], pd as [|[cp] [|]];
    lazy -[Nat.eqb] in H; try discriminate H; try exact H.
  all: cbn [pending]; unfold detectFace_resume;
    try (destruct faceLandmarks as [|lm r']); cbv beta iota; rewrite ?fold_arc.
  all: destruct st, m, md; try discriminate H; try exact H; try reflexivity.
  all: destruct f; try discriminate H; try exact H; try reflexivity.
  all: try (destruct cl); try (destruct cq); try (destruct cp);
       try discriminate H; try exact H; try reflexivity.
  all: lazy -[Nat.eqb] in H |- *; rewrite ?Nat.eqb_refl; try exact H; try reflexivity.
  all: match goal with
       | |- context [Nat.eqb ?a ?b] => destruct (Nat.eqb a b)
       end; try discriminate H; reflexivity.
Qed.

Lemma loop_ok_step (s : state) (e : event) :
  loop_ok s = true -> loop_ok (step s e) = true.
Proof.
  intros H. unfold step. rewrite loop_ok_commit. apply loop_ok_handle, H.
Qed.

Lemma loop_ok_run (tr : list event) : loop_ok (run init tr) = true.
Proof.
  apply (run_invariant (fun s => loop_ok s = true) loop_ok_step).
  exact loop_ok_init.
Qed.

(** *** Who cancels the interval *)

Lemma arcs_from_cleanup (ps : list Landmark) :
  forallb from_cleanup (map FillArc ps) = true.
Proof. induction ps as [|p ps IH]; [reflexivity|exact IH]. Qed.

Ltac log_simpl :=
  unfold cleared_by_cleanup_only; exec;
  rewrite ?forallb_app, ?arcs_from_cleanup; cbn [forallb from_cleanup Nat.eqb];
  rewrite ?andb_true_r.

Lemma cleanup_only_detectFace (c : closure) (s : state) :
  cleared_by_cleanup_only (detectFace c s) = cleared_by_cleanup_only s.
Proof.
  destruct s as [t r f st m iv n ivs md ls q pd lg un], c as [[h|]];
    [destruct m, st|]; log_simpl; reflexivity.
Qed.

Lemma cleanup_only_fold_detectFace (cs : list closure) (s : state) :
  cleared_by_cleanup_only (fold_left (fun st c => detectFace c st) cs s)
  = cleared_by_cleanup_only s.
Proof.
  revert s. induction cs as [|c cs IH]; intros s; cbn [fold_left].
  - reflexivity.
  - rewrite IH. apply cleanup_only_detectFace.
Qed.

Lemma cleanup_only_commit (old : bool * Z) (s : state) :
  cleared_by_cleanup_only (commit old s) = cleared_by_cleanup_only s.
Proof.
  destruct s as [t r f st m iv n ivs md ls q pd lg un].
  unfold commit. cbn [mounted]. destruct m; [|reflexivity].
  destruct (same_deps old _); [reflexivity|].
  destruct iv, r; log_simpl; try reflexivity;
    destruct (t =? 0); log_simpl; reflexivity.
Qed.

Lemma cleanup_only_handle (s : state) (e : event) :
  cleared_by_cleanup_only (handle e s) = cleared_by_cleanup_only s.
Proof.
  destruct e; cbn [handle].
  - destruct s as [t r f st m]. destruct f, m; reflexivity.
  - destruct s as [t r f st m]. destruct m, st; log_simpl; reflexivity.
  - destruct s as [t r f st m iv n ivs md]. destruct md, m; reflexivity.
  - destruct (media s) eqn:Hm; try reflexivity.
    rewrite cleanup_only_fold_detectFace. destruct s; reflexivity.
  - rewrite cleanup_only_fold_detectFace. destruct s; reflexivity.
  - destruct s as [t r f st m iv n ivs md ls q pd lg un].
    destruct pd as [|c rest]; [reflexivity|]. cbn [pending].
    unfold detectFace_resume.
    destruct faceLandmarks as [|lm r']; cbv beta iota; rewrite ?fold_arc;
      destruct m, st; log_simpl; reflexivity.
  - destruct s as [t r f st m iv n ivs md ls q pd lg un].
    destruct pd; reflexivity.
  - rewrite fold_tick. destruct s as [t r f st m]. destruct m; reflexivity.
  - destruct s as [t r f st m iv]. destruct m, iv; log_simpl; reflexivity.
Qed.

Lemma cleanup_only_step (s : state) (e : event) :
  cleared_by_cleanup_only (step s e) = cleared_by_cleanup_only s.
Proof. unfold step. rewrite cleanup_only_commit. apply cleanup_only_handle. Qed.

Lemma timerEffect_log (s : state) :
  log (timerEffect s)
  = log s ++ (if timerRunning s then [SetInterval (nextId s)] else []).
Proof.
  destruct s as [t r f st m iv n ivs md ls q pd lg un].
  destruct r; exec; [reflexivity|].
  rewrite app_nil_r. destruct (t =? 0); reflexivity.
Qed.

Lemma paused_branch_clears_a_set_local (i : positive) (s : state) :
  timerRunning s = false -> timer s <> 0 ->
  log (timerEffect_from (Some i) s) = log s ++ [ClearInterval 48 i].
Proof.
  intros Hr Ht. apply Z.eqb_neq in Ht.
  destruct s as [t r f st m iv n ivs md ls q pd lg un].
  cbn [timerRunning timer] in *. subst r. unfold timerEffect_from.
  cbn [timerRunning timer negb andb]. rewrite Ht. reflexivity.
Qed.

(** *** A loop armed without a detector *)

Lemma detectFace_no_detector (c : closure) (s : state) :
  no_detector c = true -> detectFace c s = s.
Proof.
  unfold no_detector, detectFace. destruct (captured c); [discriminate|reflexivity].
Qed.

Lemma fold_detectFace_no_detector (cs : list closure) (s : state) :
  forallb no_detector cs = true ->
  fold_left (fun st c => detectFace c st) cs s = s.
Proof.
  induction cs as [|c cs IH]; intros H; cbn [fold_left].
  - reflexivity.
  - cbn [forallb] in H. apply andb_prop in H as [Hc Hcs].
    rewrite (detectFace_no_detector c s Hc). apply IH, Hcs.
Qed.

Lemma never_armed_commit (old : bool * Z) (s : state) :
  never_armed (commit old s) = never_armed s.
Proof.
  destruct s as [t r f st m iv n ivs md ls q pd lg un].
  unfold commit. cbn [mounted]. destruct m; [|reflexivity].
  destruct (same_deps old _); [reflexivity|].
  unfold never_armed, detect_calls.
  destruct iv, r; exec; try destruct (t =? 0);
    rewrite ?filter_app; cbn [filter is_detect]; rewrite ?app_nil_r;
    reflexivity.
Qed.

Lemma never_armed_handle (s : state) (e : event) :
  never_armed s = true -> never_armed (handle e s) = true.
Proof.
  intros H. unfold never_armed, detect_calls in H.
  apply andb_prop in H as [H Hd]. apply andb_prop in H as [H Hq].
  apply andb_prop in H as [Hs Hl].
  destruct s as [t r f st m iv n ivs md ls q pd lg un].
  cbn [isStarted listeners pending rafQueue log] in *. subst st.
  destruct pd; [|discriminate Hq]. destruct q; [|discriminate Hq].
  assert (Hfin : forall t' r' f' m' iv' n' ivs' md' un',
             never_armed (mkState t' r' f' true m' iv' n' ivs' md' ls [] []
                            lg un') = true).
  { intros. unfold never_armed, detect_calls. exec. rewrite Hl, Hd.
    reflexivity. }
  destruct e; cbn [handle].
  - destruct f, m; apply Hfin.
  - destruct m; apply Hfin.
  - destruct md, m; apply Hfin.
  - destruct md; cbn [media]; try apply Hfin.
    rewrite fold_detectFace_no_detector by exact Hl. apply Hfin.
  - apply Hfin.
  - apply Hfin.
  - apply Hfin.
  - rewrite fold_tick. destruct m; apply Hfin.
  - destruct m; [|apply Hfin].
    destruct iv; unfold never_armed, detect_calls; exec;
      rewrite ?filter_app; cbn [filter is_detect]; rewrite ?app_nil_r;
      rewrite Hl, Hd; reflexivity.
Qed.

Lemma never_armed_run (s : state) (tr : list event) :
  never_armed s = true -> never_armed (run s tr) = true.
Proof.
  apply (run_invariant (fun s => never_armed s = true)).
  intros s0 e H. unfold step. rewrite never_armed_commit.
  apply never_armed_handle, H.
Qed.

(** *** After the component is unmounted *)

Lemma detectFace_unmounted (c : closure) (s : state) :
  mounted s = false ->
  core (detectFace c s) = core s /\
  pending (detectFace c s) = pending s /\
  rafQueue (detectFace c s) = rafQueue s.
Proof.
  intros Hm. destruct s as [t r f st m iv n ivs md ls q pd lg un].
  cbn [mounted] in Hm. subst m. destruct c as [[h|]]; repeat split.
Qed.

Lemma fold_detectFace_unmounted (cs : list closure) (s : state) :
  mounted s = false ->
  let s' := fold_left (fun st c => detectFace c st) cs s in
  core s' = core s /\ pending s' = pending s /\ rafQueue s' = rafQueue s.
Proof.
  revert s. induction cs as [|c cs IH]; intros s Hm; cbn [fold_left].
  - repeat split.
  - destruct (detectFace_unmounted c s Hm) as (Hc & Hp & Hq).
    assert (Hm' : mounted (detectFace c s) = false).
    { unfold core in Hc. injection Hc as _ _ _ _ Hc _ _ _ _. congruence. }
    destruct (IH _ Hm') as (Hc' & Hp' & Hq').
    cbv zeta. rewrite Hc', Hp', Hq'. auto.
Qed.

(** Once the component is unmounted no callback changes the React state,
    the timers or the call log, and nothing new is scheduled. *)
Lemma unmounted_step (s : state) (e : event) :
  mounted s = false ->
  core (step s e) = core s /\
  (List.length (pending (step s e)) <= List.length (pending s))%nat /\
  (List.length (rafQueue (step s e)) <= List.length (rafQueue s))%nat.
Proof.
  intros Hm.
  assert (Hc : core (handle e s) = core s /\
               (List.length (pending (handle e s)) <= List.length (pending s))%nat /\
               (List.length (rafQueue (handle e s)) <= List.length (rafQueue s))%nat).
  { destruct e; cbn [handle].
    - destruct s as [t r f st m]; cbn [mounted] in Hm; subst m.
      destruct f; repeat split; apply le_n.
    - rewrite Hm. repeat split; apply le_n.
    - destruct s as [t r f st m iv n ivs md]; cbn [mounted] in Hm; subst m.
      destruct md; repeat split; apply le_n.
    - destruct (media s) eqn:Hmd; try (repeat split; apply le_n).
      destruct (fold_detectFace_unmounted (listeners s) (with_media Loaded s))
        as (H1 & H2 & H3); [destruct s; exact Hm|].
      rewrite H1, H2, H3. destruct s; repeat split; apply le_n.
    - destruct (fold_detectFace_unmounted (rafQueue s) (with_rafQueue [] s))
        as (H1 & H2 & H3); [destruct s; exact Hm|].
      rewrite H1, H2, H3. destruct s; repeat split; cbn; auto using le_n, Nat.le_0_l.
    - destruct s as [t r f st m iv n ivs md ls q pd lg un];
        cbn [mounted] in Hm; subst m.
      destruct pd; repeat split; cbn; auto.
    - destruct s as [t r f st m iv n ivs md ls q pd lg un];
        cbn [mounted] in Hm; subst m.
      destruct pd; repeat split; cbn; auto.
    - rewrite fold_tick, Hm. repeat split; apply le_n.
    - rewrite Hm. repeat split; apply le_n. }
  unfold step, commit.
  assert (Hm' : mounted (handle e s) = false).
  { destruct Hc as [Hc _]. unfold core in Hc.
    injection Hc as _ _ _ _ Hc _ _ _ _. congruence. }
  rewrite Hm'. exact Hc.
Qed.

Lemma unmounted_run (tr : list event) (s : state) :
  mounted s = false ->
  core (run s tr) = core s /\
  (List.length (pending (run s tr)) <= List.length (pending s))%nat /\
  (List.length (rafQueue (run s tr)) <= List.length (rafQueue s))%nat.
Proof.
  revert s. induction tr as [|e tr IH]; intros s Hm.
  - repeat split; apply le_n.
  - rewrite run_cons.
    destruct (unmounted_step s e Hm) as (Hc & Hp & Hq).
    assert (Hm' : mounted (step s e) = false).
    { unfold core in Hc. injection Hc as _ _ _ _ Hc _ _ _ _. congruence. }
    destruct (IH _ Hm') as (Hc' & Hp' & Hq').
    rewrite Hc', Hc. repeat split; eapply Nat.le_trans; eauto.
Qed.

Lemma unmount_unmounts (s : state) : mounted (step s Unmount) = false.
Proof.
  pose proof (loop_view_step s Unmount) as H. unfold loop_view in H.
  injection H as H _ _ _ _ _. rewrite H. cbn [handle].
  destruct s as [t r f st m iv]. destruct m, iv; reflexivity.
Qed.

(** The teardown leaves no interval behind. *)
Lemma teardown_clears_interval (tr : list event) :
  intervals (run init (tr ++ [Unmount])) = [].
Proof.
  destruct (TimerInv_run (tr ++ [Unmount])) as [H1 H2].
  rewrite run_app in *. cbn [run fold_left] in *.
  rewrite unmount_unmounts in H2. rewrite H1.
  destruct (interval _); [discriminate H2|reflexivity].
Qed.

(** *** Closures while no detector is loaded *)

Lemma captured_ok_absent (cs : list closure) :
  forallb (captured_ok None) cs = forallb no_detector cs.
Proof.
  induction cs as [|[[h|]] cs IH]; cbn; [reflexivity|reflexivity|exact IH].
Qed.

Lemma forallb_app_l {A} (p : A -> bool) (l1 l2 : list A) :
  forallb p (l1 ++ l2) = true -> forallb p l1 = true.
Proof. rewrite forallb_app. intros H. apply andb_prop in H as [H _]. exact H. Qed.

Lemma forallb_app_r {A} (p : A -> bool) (l1 l2 : list A) :
  forallb p (l1 ++ l2) = true -> forallb p l2 = true.
Proof. rewrite forallb_app. intros H. apply andb_prop in H as [_ H]. exact H. Qed.

(** With no detector in the state, no closure holds one. *)
Lemma closures_absent (s : state) :
  loop_ok s = true -> faceLandmarker s = None ->
  forallb no_detector (listeners s) = true /\ forallb no_detector (rafQueue s) = true.
Proof.
  intros H Hf. unfold loop_ok in H. apply andb_prop in H as [_ H].
  rewrite Hf, captured_ok_absent in H. split.
  - apply (forallb_app_l _ _ _ H).
  - apply forallb_app_r in H. apply (forallb_app_l _ _ _ H).
Qed.

(** *** The readout along a run *)

Lemma timer_handle (s : state) (e : event) :
  is_tick e = false -> timer (handle e s) = timer s.
Proof.
  intros He. pose proof (handle_timer_side s e) as H.
  destruct e; try discriminate He;
    try (unfold timer_side in H; injection H as H _ _ _ _ _; exact H).
  - cbn [handle]. destruct (pending s) as [|c rest] eqn:Hp; [reflexivity|].
    destruct (timer_side_resume c faceLandmarks (with_pending rest s))
      as (_ & _ & _ & Ht & _).
    rewrite Ht. destruct s; reflexivity.
  - cbn [handle]. destruct s as [t r f st m iv]. destruct m, iv; reflexivity.
Qed.

Lemma timer_step (s : state) (e : event) :
  TimerInv s ->
  timer (step s e)
  = if is_tick e && (mounted s && timerRunning s) then timer s - 1
    else timer s.
Proof.
  intros Hinv. destruct (is_tick e) eqn:He.
  - destruct e; try discriminate He. apply tick_effect, Hinv.
  - cbn [andb].
    pose proof (loop_view_step s e) as H. unfold loop_view in H.
    injection H as _ _ _ _ _ H. rewrite H. apply timer_handle, He.
Qed.

Lemma timer_bounds (tr : list event) (s : state) :
  TimerInv s -> timer s - ticks tr <= timer (run s tr) <= timer s.
Proof.
  revert s. induction tr as [|e tr IH]; intros s Hinv.
  - unfold ticks. cbn. lia.
  - rewrite run_cons.
    pose proof (IH _ (TimerInv_step s e Hinv)) as Hb.
    rewrite (timer_step s e Hinv) in Hb.
    unfold ticks in *. cbn [filter].
    destruct (is_tick e); cbn [andb List.length] in *;
      [destruct (mounted s && timerRunning s)|]; lia.
Qed.

Lemma awaiting_start_up (h : FaceLandmarker) :
  awaiting (run init (start_up h)) = true.
Proof. reflexivity. Qed.

Lemma count_present_repeat (n : nat) :
  count_present (repeat present n) = Z.of_nat n.
Proof.
  unfold count_present. induction n as [|n IH]; [reflexivity|].
  cbn [repeat filter is_present List.length]. lia.
Qed.

(** With a face in view for [n] seconds the readout has lost [n]. *)
Lemma countdown_after (h : FaceLandmarker) (n : nat) :
  timer (run init (start_up h ++ flat_map second (repeat present n)))
  = 1800 - Z.of_nat n.
Proof.
  rewrite run_app, seconds_effect, count_present_repeat.
  - reflexivity.
  - apply TimerInv_run.
  - apply awaiting_start_up.
Qed.

Lemma negative_reachable (s : Z) :
  s < 0 -> exists tr, timer (run init tr) = s.
Proof.
  intros Hs.
  exists (start_up 0%nat ++ flat_map second (repeat present (Z.to_nat (1800 - s))))%list.
  rewrite countdown_after. lia.
Qed.

End ComponentFacts.

(** ** The properties of the specification *)

Module Claims.
Import Display DisplayFacts Component ComponentFacts.

(** C1.  In every state that a run of the mounted component reaches, a
    tick of the one-second interval takes exactly 1 off [timer] when
    [timerRunning] is true and leaves it unchanged when [timerRunning] is
    false; and when the frame loop is running, the four seconds with the
    detection outcomes present, present, absent, present take exactly 3
    off [timer]. *)
Theorem countdown_follows_detection (tr : list event) :
  let s := run init tr in
  mounted s = true ->
  timer (step s Tick) = (if timerRunning s then timer s - 1 else timer s) /\
  (awaiting s = true ->
   timer (run s (flat_map second [present; present; absent; present]))
   = timer s - 3).
Proof.
  intros s Hm. split.
  - rewrite tick_effect by apply TimerInv_run. rewrite Hm. reflexivity.
  - intros Ha.
    rewrite seconds_effect; [reflexivity|apply TimerInv_run|exact Ha].
Qed.

Lemma countdown_follows_detection_witness :
  let s := run init (start_up 7%nat) in
  timer (step s Tick) = 1800 /\
  timer (run s (flat_map second [present; present; absent; present])) = 1797.
Proof.
  intros s.
  destruct (countdown_follows_detection (start_up 7%nat) eq_refl) as [H1 H2].
  split; [exact H1|exact (H2 eq_refl)].
Defined.

(** C2, as stated, fails: it is not the case that [timer] stays at or
    above 0 along every run from the initial 1800.  With a face in view
    for 1801 seconds the run ends at -1. *)
Lemma countdown_passes_zero :
  ~ (forall tr, 0 <= timer (run init tr)).
Proof.
  intros H.
  specialize (H (start_up 7%nat ++ flat_map second (repeat present 1801))).
  rewrite countdown_after in H. lia.
Qed.

(** C2, amended.  Starting from 1800, [timer] after any sequence of events
    lies between 1800 minus the number of one-second ticks and 1800 (so it
    is at least 0 while at most 1800 ticks have passed), and there is no
    clamp: with a face in view for [n] seconds it is [1800 - n], for every
    [n]. *)
Theorem countdown_bounds (tr : list event) :
  1800 - ticks tr <= timer (run init tr) <= 1800 /\
  (forall h n,
     timer (run init (start_up h ++ flat_map second (repeat present n)))
     = 1800 - Z.of_nat n).
Proof.
  split; [|intros h n; apply countdown_after].
  exact (timer_bounds tr init TimerInv_init).
Qed.

(** C3, as stated, fails: Start pressed before the detector is loaded
    registers a [detectFace] that holds no detector; when the video fires
    'loadeddata' that tick schedules nothing, and the loop stays dead on
    the following frames. *)
Lemma absent_handle_tick_does_not_rearm :
  let s := run init [ClickStart; StreamGranted] in
  let s' := step s LoadedData in
  mounted s = true /\ listeners s = [mkClosure None] /\
  media s' = Loaded /\ rafQueue s' = [] /\ pending s' = [] /\
  loop_alive (run s' [AnimationFrame; AnimationFrame]) = false.
Proof. vm_compute. repeat split. Qed.

(** C3, amended.  While the canvas is there, a tick of the frame loop that
    has a detector issues its detection call and suspends, and when the
    call resolves it schedules itself for the next frame whatever the
    result (faces or none); a tick without a detector schedules nothing
    and leaves the state as it is. *)
Theorem rearm_follows_detector (s : state) (c : closure)
  (r : list (list Landmark)) :
  canvasRef s = true ->
  (forall h, captured c = Some h ->
     pending (detectFace c s) = pending s ++ [c] /\
     rafQueue (detectFace c s) = rafQueue s) /\
  rafQueue (detectFace_resume c r s) = rafQueue s ++ [c] /\
  (captured c = None -> detectFace c s = s).
Proof.
  intros Hc. repeat split.
  - unfold detectFace. rewrite H, Hc. destruct s; reflexivity.
  - unfold detectFace. rewrite H, Hc. destruct s; reflexivity.
  - unfold detectFace_resume. rewrite Hc.
    destruct r as [|lm r]; cbv beta iota zeta; rewrite ?fold_arc;
      destruct s as [t tr f st m]; unfold canvasRef in Hc;
      cbn [mounted isStarted] in Hc; destruct m; try discriminate Hc;
      reflexivity.
  - intros Hn. unfold detectFace. rewrite Hn. reflexivity.
Qed.

Lemma rearm_follows_detector_witness :
  let s := run init (start_up 7%nat) in
  rafQueue (detectFace_resume (mkClosure (Some 7%nat)) [] s)
  = [mkClosure (Some 7%nat)].
Proof.
  intros s.
  destruct (rearm_follows_detector s (mkClosure (Some 7%nat)) [] eq_refl)
    as (_ & H & _).
  exact H.
Defined.

(** C4.  Along every run at most one detection call is outstanding, and a
    frame callback is scheduled only while none is: the number of
    unresolved [detectForVideo] calls plus the number of scheduled frame
    callbacks never exceeds 1. *)
Theorem single_flight (tr : list event) :
  (outstanding (run init tr) + List.length (rafQueue (run init tr)) <= 1)%nat.
Proof.
  pose proof (loop_ok_run tr) as H. unfold loop_ok in H.
  repeat (apply andb_prop in H as [H _]).
  apply Nat.leb_le, H.
Qed.

(** C5, on the code.  When Start is pressed before the detector is loaded,
    then whatever happens afterwards (the detector being loaded late
    included) no detection call is ever made and the frame loop is not
    alive: [detectFace] keeps the [null] it captured.  The last part is
    one such run, in which the state does hold the detector. *)
Theorem late_detector_never_used (tr : list event) :
  let s := run init (ClickStart :: tr) in
  detect_calls s = [] /\ loop_alive s = false /\
  let s1 :=
    run init [ClickStart; DetectorLoaded 7%nat; StreamGranted; LoadedData;
              AnimationFrame] in
  faceLandmarker s1 = Some 7%nat /\ listeners s1 = [mkClosure None].
Proof.
  intros s.
  assert (H : never_armed s = true).
  { subst s. rewrite run_cons. apply never_armed_run. reflexivity. }
  unfold never_armed in H.
  apply andb_prop in H as [H Hd]. apply andb_prop in H as [_ Hq].
  split; [|split].
  - destruct (detect_calls s); [reflexivity|discriminate Hd].
  - unfold loop_alive.
    destruct (List.length (pending s) + List.length (rafQueue s))%nat;
      [reflexivity|discriminate Hq].
  - split; reflexivity.
Qed.

(** C6, on the code.  The teardown does clear the one-second interval,
    after every run, but it leaves the scheduled frame callbacks and the
    suspended activations where they are.  In the run below the frame
    callback is still scheduled after the teardown, and the next animation
    frame runs it: it ends in the uncaught [TypeError] of line 74. *)
Theorem teardown_leaves_frame_loop_armed :
  (forall tr, intervals (run init (tr ++ [Unmount])) = []) /\
  (forall s, rafQueue (step s Unmount) = rafQueue s /\
             pending (step s Unmount) = pending s) /\
  let s := run init (start_up 7%nat ++ [DetectionResolved [[0%nat]]; Unmount]) in
  mounted s = false /\
  rafQueue s = [mkClosure (Some 7%nat)] /\
  uncaught s = [] /\
  uncaught (step s AnimationFrame) = [TypeError 74].
Proof.
  split; [exact teardown_clears_interval|]. split.
  - intros s. destruct s as [t r f st m iv n ivs md ls q pd lg un].
    destruct m, iv; repeat split.
  - vm_compute. repeat split.
Qed.

(** C7.  A tick of the frame loop ('loadeddata' or an animation frame)
    on which the detector handle is absent, that is on which every
    [detectFace] that runs holds [null], makes no call at all, so none on
    the canvas, and changes neither [timerRunning] nor [timer]:
    [detectFace] without a detector returns the state it was given.  In
    every state that a run reaches with no detector loaded, all registered
    and scheduled closures are of that kind. *)
Theorem absent_detector_tick_is_noop (s : state) (e : event) :
  is_frame_tick e = true ->
  forallb no_detector (listeners s) = true ->
  forallb no_detector (rafQueue s) = true ->
  (forall c, no_detector c = true -> detectFace c s = s) /\
  canvas_calls (step s e) = canvas_calls s /\
  log (step s e) = log s /\
  timerRunning (step s e) = timerRunning s /\
  timer (step s e) = timer s /\
  (forall tr,
     faceLandmarker (run init tr) = None ->
     forallb no_detector (listeners (run init tr)) = true /\
     forallb no_detector (rafQueue (run init tr)) = true).
Proof.
  intros He Hl Hq.
  split; [intros c Hc; apply detectFace_no_detector, Hc|].
  assert (Hh : log (handle e s) = log s /\
               timer_side (handle e s) = timer_side s).
  { destruct e; try discriminate He; cbn [handle].
    - destruct (media s); try (split; reflexivity).
      rewrite fold_detectFace_no_detector by (destruct s; exact Hl).
      destruct s; split; reflexivity.
    - rewrite fold_detectFace_no_detector by (destruct s; exact Hq).
      destruct s; split; reflexivity. }
  destruct Hh as [Hlog Hside].
  unfold canvas_calls, step. rewrite (commit_unchanged _ _ Hside), Hlog.
  unfold timer_side in Hside. injection Hside as Ht Hr _ _ _ _.
  repeat split; auto.
  - apply (closures_absent _ (loop_ok_run tr) H).
  - apply (closures_absent _ (loop_ok_run tr) H).
Qed.

Lemma absent_detector_tick_is_noop_witness :
  let s := run init [ClickStart; DetectorLoaded 7%nat; StreamGranted] in
  faceLandmarker s = Some 7%nat /\
  log (step s LoadedData) = log s /\ timerRunning (step s LoadedData) = false.
Proof.
  intros s. split; [reflexivity|].
  destruct (absent_detector_tick_is_noop s LoadedData eq_refl eq_refl eq_refl)
    as (_ & _ & Hlog & Hr & _).
  split; [exact Hlog|exact Hr].
Defined.

Local Open Scope string_scope.

(** C8.  For every [s >= 0] the readout is the decimal numeral of
    [floor (s / 60)], a colon, and [s mod 60] written with two digits, a
    string of the shape [M:SS]; 1800 reads "30:00", 59 reads "0:59" and 0
    reads "0:00". *)
Theorem display_is_minutes_and_padded_seconds (s : Z) :
  0 <= s ->
  display s = display_spec s /\
  is_M_SS (display s) = true /\
  display 1800 = "30:00" /\ display 59 = "0:59" /\ display 0 = "0:00".
Proof.
  intros Hs. split; [apply display_refines_spec, Hs|].
  split; [apply display_nonneg_is_M_SS, Hs|]. repeat split.
Qed.

Lemma display_is_minutes_and_padded_seconds_witness :
  0 <= 59 /\ display 59 = display_spec 59.
Proof.
  split; [lia|].
  destruct (display_is_minutes_and_padded_seconds 59) as [H _]; [lia|exact H].
Defined.

(** C9.  Every [s < 0] is reached by some run, and its readout is not of
    the shape [M:SS]: the minutes are [Math.floor (s / 60)], a negative
    numeral, and the seconds are the signed remainder, which has two
    digits only when [s] is a multiple of 60; -1 reads "-1:-1" and -61
    reads "-2:-1". *)
Theorem display_of_negative_time (s : Z) :
  s < 0 ->
  (exists tr, timer (run init tr) = s) /\
  is_M_SS (display s) = false /\
  two_digits (seconds_field (display s)) = (Z.rem s 60 =? 0)%Z /\
  display (-1) = "-1:-1" /\ display (-61) = "-2:-1".
Proof.
  intros Hs. split; [apply negative_reachable, Hs|].
  split; [apply display_negative_not_M_SS, Hs|].
  split; [apply seconds_field_of_negative, Hs|]. split; reflexivity.
Qed.

Lemma display_of_negative_time_witness :
  -1 < 0 /\ is_M_SS (display (-1)) = false.
Proof.
  split; [lia|].
  destruct (display_of_negative_time (-1)) as (_ & H & _); [lia|exact H].
Defined.

Close Scope string_scope.

(** C10.  The body of the timer effect never calls [clearInterval]: for
    every [timerRunning] and [timer] the only call it makes is the
    [setInterval] of the running branch, and it leaves the live intervals
    alone otherwise; along every run each [clearInterval] comes from the
    cleanup (line 54), none from the paused branch (line 48). *)
Theorem paused_branch_never_clears :
  (forall s,
     log (timerEffect s)
     = log s ++ (if timerRunning s then [SetInterval (nextId s)] else []) /\
     intervals (timerEffect s)
     = intervals s ++ (if timerRunning s then [nextId s] else [])) /\
  (forall tr, cleared_by_cleanup_only (run init tr) = true).
Proof.
  split.
  - intros s. split; [apply timerEffect_log|].
    destruct s as [t r f st m iv n ivs md ls q pd lg un].
    destruct r; exec; [reflexivity|].
    rewrite app_nil_r. destruct (t =? 0); reflexivity.
  - intros tr.
    apply (run_invariant (fun s => cleared_by_cleanup_only s = true)).
    + intros s e H. rewrite cleanup_only_step. exact H.
    + reflexivity.
Qed.

End Claims.

(** ** Reading the readout back *)

Module ReadoutFacts.
Import Display DisplayFacts Observations.
Local Open Scope string_scope.

Lemma parseZ_toString (z : Z) : parseZ (toString z) = Some z.
Proof.
  unfold parseZ, toString. rewrite NilZero.isi.
  - cbn [option_map]. rewrite DecimalZ.of_to. reflexivity.
  - destruct z as [|p|p]; cbn [Z.to_int]; try discriminate.
    intros E. injection E as E. exact (Unsigned.to_uint_nonnil p E).
  - destruct z as [|p|p]; cbn [Z.to_int]; try discriminate.
    intros E. injection E as E. exact (Unsigned.to_uint_nonnil p E).
Qed.

Lemma minutes_field_uint (d : Decimal.uint) (x : string) :
  minutes_field (NilEmpty.string_of_uint d ++ x)
  = NilEmpty.string_of_uint d ++ minutes_field x.
Proof. induction d; cbn; rewrite ?IHd; reflexivity. Qed.

Lemma append_empty (s : string) : s ++ "" = s.
Proof. induction s as [|c s IH]; cbn; rewrite ?IH; reflexivity. Qed.

Lemma minutes_field_toString (n : Z) (x : string) :
  minutes_field (toString n ++ ":" ++ x) = toString n.
Proof.
  unfold toString.
  destruct n as [|p|p]; cbn [Z.to_int NilZero.string_of_int]; [reflexivity| |];
    unfold NilZero.string_of_uint;
    destruct (Pos.to_uint p) eqn:E; try reflexivity;
    rewrite <- E; cbn [append minutes_field Ascii.eqb];
    rewrite minutes_field_uint; cbn [append minutes_field Ascii.eqb];
    rewrite append_empty; reflexivity.
Qed.

Lemma parse_seconds_nat (n : nat) :
  (n < 60)%nat ->
  parseZ (padStart 2 "0" (toString (Z.of_nat n))) = Some (Z.of_nat n) /\
  parseZ (padStart 2 "0" (toString (- Z.of_nat n))) = Some (- Z.of_nat n).
Proof.
  intros Hn.
  do 60 (destruct n as [|n]; [split; reflexivity|]).
  lia.
Qed.

Lemma parse_seconds (r : Z) :
  -60 < r < 60 -> parseZ (padStart 2 "0" (toString r)) = Some r.
Proof.
  intros Hr. destruct (Z_lt_le_dec r 0) as [Hneg|Hpos].
  - replace r with (- Z.of_nat (Z.to_nat (- r))) by lia.
    apply parse_seconds_nat. lia.
  - replace r with (Z.of_nat (Z.to_nat r)) by lia.
    apply parse_seconds_nat. lia.
Qed.

(** The readout can be read back, below zero as well. *)
Lemma read_back_display (s : Z) : read_back (display s) = Some s.
Proof.
  unfold read_back. rewrite seconds_field_display.
  unfold display at 1. rewrite minutes_field_toString, parseZ_toString.
  assert (Hr : -60 < Z.rem s 60 < 60).
  { destruct (Z_lt_le_dec s 0).
    - pose proof (Z.rem_bound_pos_neg s 60 ltac:(lia) ltac:(lia)). lia.
    - pose proof (Z.rem_bound_pos s 60 ltac:(lia) ltac:(lia)). lia. }
  rewrite parse_seconds by exact Hr. f_equal.
  pose proof (Z.quot_rem' s 60) as Hq.
  pose proof (Z.div_mod s 60 ltac:(lia)) as Hd.
  pose proof (Z.mod_pos_bound s 60 ltac:(lia)) as Hm.
  destruct (Z.ltb_spec (Z.rem s 60) 0) as [Hn|Hn]; lia.
Qed.

Lemma display_injective (s1 s2 : Z) : display s1 = display s2 -> s1 = s2.
Proof.
  intros E. pose proof (read_back_display s1) as H1.
  rewrite E, read_back_display in H1. congruence.
Qed.

End ReadoutFacts.

(** ** More facts about runs *)

Module RunFacts.
Import Display DisplayFacts Component ComponentFacts Observations.

Lemma handle_cells (s : state) (e : event) :
  (is_tick e = false -> timer (handle e s) = timer s) /\
  (is_resolution e = false -> timerRunning (handle e s) = timerRunning s) /\
  (is_detector_loaded e = false -> faceLandmarker (handle e s) = faceLandmarker s) /\
  (is_click e = false -> isStarted (handle e s) = isStarted s).
Proof.
  split; [apply timer_handle|].
  assert (Hfold : forall cs s0,
            let s1 := fold_left (fun st c => detectFace c st) cs s0 in
            timerRunning s1 = timerRunning s0 /\
            faceLandmarker s1 = faceLandmarker s0 /\
            isStarted s1 = isStarted s0).
  { induction cs as [|c cs IH]; intros s0; cbn [fold_left]; [auto|].
    destruct (IH (detectFace c s0)) as (H1 & H2 & H3).
    cbv zeta. rewrite H1, H2, H3.
    destruct s0 as [t r f st m iv n ivs md ls q pd lg un], c as [[h|]];
      [destruct m, st|]; auto. }
  destruct e; cbn [handle is_resolution is_detector_loaded is_click];
    repeat split; intros He; try discriminate He.
  all: try (destruct s as [t r f st m iv n ivs md ls q pd lg un];
            try destruct f; try destruct m; try destruct st;
            try destruct md; try destruct pd; try destruct iv; reflexivity).
  all: try (destruct (media s);
            try (destruct (Hfold (listeners s) (with_media Loaded s)) as (H1 & H2 & H3);
                 rewrite ?H1, ?H2, ?H3); destruct s; reflexivity).
  all: try (destruct (Hfold (rafQueue s) (with_rafQueue [] s)) as (H1 & H2 & H3);
            rewrite ?H1, ?H2, ?H3; destruct s; reflexivity).
  all: try (destruct (pending s) as [|c rest] eqn:Hp; [reflexivity|];
            unfold detectFace_resume;
            destruct faceLandmarks as [|lm r']; cbv beta iota zeta; rewrite ?fold_arc;
            destruct s as [t r f st m iv n ivs md ls q pd lg un];
            destruct m, st; reflexivity).
  all: try (rewrite fold_tick; destruct s as [t r f st m]; destruct m; reflexivity).
Qed.

Lemma cells_commit (old : bool * Z) (s : state) :
  cells (commit old s) = cells s.
Proof.
  destruct s as [t r f st m iv n ivs]. unfold commit. cbn [mounted].
  destruct m; [|reflexivity].
  destruct (same_deps old _); [reflexivity|].
  destruct iv, r; try reflexivity; exec; destruct (t =? 0); reflexivity.
Qed.

Lemma step_writers (s : state) (e : event) :
  (is_tick e = false -> timer (step s e) = timer s) /\
  (is_resolution e = false -> timerRunning (step s e) = timerRunning s) /\
  (is_detector_loaded e = false ->
   faceLandmarker (step s e) = faceLandmarker s) /\
  (is_click e = false -> isStarted (step s e) = isStarted s).
Proof.
  pose proof (cells_commit (timerRunning s, timer s) (handle e s)) as Hc.
  unfold cells in Hc. injection Hc as Ht Hr Hf Hs.
  destruct (handle_cells s e) as (H1 & H2 & H3 & H4).
  unfold step. rewrite Ht, Hr, Hf, Hs. auto.
Qed.

Lemma last_present_app (os : list outcome) (o : outcome) (b : bool) :
  last_present (os ++ [o]) b = is_present o.
Proof. unfold last_present. rewrite fold_left_app. reflexivity. Qed.

Lemma seconds_state (os : list outcome) (s : state) :
  TimerInv s -> awaiting s = true ->
  let s' := run s (flat_map second os) in
  TimerInv s' /\ awaiting s' = true /\
  timerRunning s' = last_present os (timerRunning s).
Proof.
  revert s. induction os as [|o os IH]; intros s Hinv Ha.
  - cbn. auto.
  - cbn [flat_map]. rewrite run_app.
    destruct (second_effect s o Hinv Ha) as (Hinv' & Ha' & Hr & _).
    destruct (IH _ Hinv' Ha') as (H1 & H2 & H3).
    cbv zeta. rewrite H3, Hr. auto.
Qed.

Lemma count_present_absent (n : nat) : count_present (repeat absent n) = 0.
Proof.
  unfold count_present. induction n as [|n IH]; [reflexivity|exact IH].
Qed.

Lemma count_calls_emit (p : call -> bool) (c : call) (s : state) :
  count_calls p (emit c s) = (count_calls p s + if p c then 1 else 0)%nat.
Proof.
  unfold count_calls. destruct s. exec. rewrite filter_app, length_app.
  cbn [filter]. destruct (p c); reflexivity.
Qed.

(** A callback that makes no timer call keeps the balance. *)
Lemma balanced_same (s s' : state) :
  count_calls is_set s' = count_calls is_set s ->
  count_calls is_clear s' = count_calls is_clear s ->
  intervals s' = intervals s ->
  intervals_balanced s -> intervals_balanced s'.
Proof. unfold intervals_balanced. intros -> -> ->. auto. Qed.

Section Filters.
Variable p : call -> bool.

Lemma filter_arcs :
  (forall x, p (FillArc x) = false) ->
  forall ps, filter p (map FillArc ps) = [].
Proof.
  intros Hp ps. induction ps as [|x ps IH]; [reflexivity|].
  cbn [map filter]. rewrite Hp. exact IH.
Qed.

Ltac filters Hp :=
  exec; rewrite ?filter_app; cbn [filter];
  rewrite ?Hp by reflexivity; rewrite ?app_nil_r; try reflexivity.

(** The timer effect makes timer calls only. *)
Lemma commit_calls (old : bool * Z) (s : state) :
  (forall c, effect_call c = true -> p c = false) ->
  filter p (log (commit old s)) = filter p (log s).
Proof.
  intros Hp. destruct s as [t r f st m iv n ivs md ls q pd lg un].
  unfold commit. cbn [mounted]. destruct m; [|reflexivity].
  destruct (same_deps old _); [reflexivity|].
  destruct iv, r; filters Hp; destruct (t =? 0); filters Hp.
Qed.

Lemma detectFace_calls (c : closure) (s : state) :
  (forall h, p (DetectForVideo h) = false) ->
  filter p (log (detectFace c s)) = filter p (log s).
Proof.
  intros Hp. destruct s as [t r f st m iv n ivs md ls q pd lg un], c as [[h|]];
    [destruct m, st|]; filters Hp.
Qed.

Lemma fold_detectFace_calls (cs : list closure) (s : state) :
  (forall h, p (DetectForVideo h) = false) ->
  filter p (log (fold_left (fun st c => detectFace c st) cs s))
  = filter p (log s).
Proof.
  intros Hp. revert s. induction cs as [|c cs IH]; intros s; cbn [fold_left].
  - reflexivity.
  - rewrite IH. apply detectFace_calls, Hp.
Qed.

(** A callback makes only the calls of its event. *)
Lemma handle_calls (s : state) (e : event) :
  (forall c, may_call e c = true -> p c = false) ->
  filter p (log (handle e s)) = filter p (log s).
Proof.
  intros Hp. destruct e; cbn [handle].
  - destruct s as [t r f st m]. destruct f, m; reflexivity.
  - destruct s as [t r f st m]. destruct m, st; filters Hp.
  - destruct s as [t r f st m iv n ivs md]. destruct md, m; reflexivity.
  - destruct (media s) eqn:Hm; try reflexivity.
    rewrite fold_detectFace_calls by (intros h; apply Hp; reflexivity).
    destruct s; reflexivity.
  - rewrite fold_detectFace_calls by (intros h; apply Hp; reflexivity).
    destruct s; reflexivity.
  - destruct s as [t r f st m iv n ivs md ls q pd lg un].
    destruct pd as [|c rest]; [reflexivity|]. cbn [pending].
    unfold detectFace_resume.
    destruct faceLandmarks as [|lm r']; cbv beta iota zeta; rewrite ?fold_arc;
      destruct m, st; exec; rewrite ?filter_app; cbn [filter];
      rewrite ?Hp by reflexivity;
      rewrite ?filter_arcs by (intros x; apply Hp; reflexivity);
      rewrite ?app_nil_r; reflexivity.
  - destruct s as [t r f st m iv n ivs md ls q pd lg un].
    destruct pd; reflexivity.
  - rewrite fold_tick. destruct s as [t r f st m]. destruct m; reflexivity.
  - destruct s as [t r f st m iv]. destruct m, iv; filters Hp.
Qed.

(** The live intervals change in the timer effect and the teardown only. *)
Lemma handle_intervals (s : state) (e : event) :
  is_unmount e = false -> intervals (handle e s) = intervals s.
Proof.
  intros He. pose proof (handle_timer_side s e) as H.
  destruct e; try discriminate He;
    try (unfold timer_side in H; injection H as _ _ _ _ _ H; exact H).
  - cbn [handle]. destruct (pending s) as [|c rest] eqn:Hp0; [reflexivity|].
    destruct (timer_side_resume c faceLandmarks (with_pending rest s))
      as (_ & _ & Hi & _).
    rewrite Hi. destruct s; reflexivity.
  - cbn [handle]. rewrite fold_tick.
    destruct s as [t r f st m]. destruct m; reflexivity.
Qed.

End Filters.

Lemma handle_interval (s : state) (e : event) :
  is_unmount e = false -> interval (handle e s) = interval s.
Proof.
  intros He. pose proof (handle_timer_side s e) as H.
  destruct e; try discriminate He;
    try (unfold timer_side in H; injection H as _ _ _ H _ _; exact H).
  - cbn [handle]. destruct (pending s) as [|c rest] eqn:Hp; [reflexivity|].
    destruct (timer_side_resume c faceLandmarks (with_pending rest s))
      as (_ & Hi & _).
    rewrite Hi. destruct s; reflexivity.
  - cbn [handle]. rewrite fold_tick.
    destruct s as [t r f st m]. destruct m; reflexivity.
Qed.

Lemma not_unmount_no_set (e : event) (c : call) :
  may_call e c = true -> is_set c = false.
Proof. destruct e, c; try reflexivity; discriminate. Qed.

Lemma not_unmount_no_clear (e : event) (c : call) :
  is_unmount e = false -> may_call e c = true -> is_clear c = false.
Proof. destruct e, c; try reflexivity; discriminate. Qed.

Lemma balanced_cleanup_effect (s : state) :
  intervals s = opt_list (interval s) ->
  intervals_balanced s ->
  intervals_balanced (timerCleanup s) /\
  intervals_balanced (timerEffect (timerCleanup s)).
Proof.
  unfold intervals_balanced, count_calls.
  destruct s as [t r f st m iv n ivs md ls q pd lg un].
  cbn [intervals interval log]. intros -> H.
  destruct iv as [i|], r; split; exec;
    try destruct (t =? 0);
    rewrite ?filter_app, ?length_app; cbn [filter is_set is_clear opt_list];
    rewrite ?Pos.eqb_refl; cbn [negb List.length app opt_list] in *;
    rewrite ?length_app; cbn [List.length]; lia.
Qed.

Lemma balanced_step (s : state) (e : event) :
  TimerInv s -> intervals_balanced s -> intervals_balanced (step s e).
Proof.
  intros [H1 H2] Hb. unfold step.
  destruct (is_unmount e) eqn:He.
  - destruct e; try discriminate He. cbn [handle].
    destruct (mounted s) eqn:Hm.
    + destruct (balanced_cleanup_effect s H1 Hb) as [Hc _].
      unfold commit.
      replace (mounted (with_interval None (with_mounted false (timerCleanup s))))
        with false by (destruct s as [t r f st m iv]; destruct iv; reflexivity).
      unfold intervals_balanced, count_calls in *.
      replace (log (with_interval None (with_mounted false (timerCleanup s))))
        with (log (timerCleanup s))
        by (destruct s as [t r f st m iv]; destruct iv; reflexivity).
      replace (intervals (with_interval None (with_mounted false (timerCleanup s))))
        with (intervals (timerCleanup s))
        by (destruct s as [t r f st m iv]; destruct iv; reflexivity).
      exact Hc.
    + unfold commit. rewrite Hm. exact Hb.
  - pose proof (handle_calls is_set s e (not_unmount_no_set e)) as Hs.
    pose proof (handle_calls is_clear s e (fun c => not_unmount_no_clear e c He)) as Hc.
    pose proof (handle_intervals s e He) as Hi.
    assert (Hb' : intervals_balanced (handle e s)).
    { unfold intervals_balanced, count_calls. rewrite Hs, Hc, Hi. exact Hb. }
    assert (Hl : intervals (handle e s) = opt_list (interval (handle e s))).
    { rewrite Hi, (handle_interval s e He). exact H1. }
    unfold commit. destruct (mounted (handle e s)); [|exact Hb'].
    destruct (same_deps _ _); [exact Hb'|].
    apply balanced_cleanup_effect; assumption.
Qed.

Lemma balanced_run (tr : list event) : intervals_balanced (run init tr).
Proof.
  assert (H : TimerInv (run init tr) /\ intervals_balanced (run init tr)).
  { apply (run_invariant (fun s => TimerInv s /\ intervals_balanced s)).
    - intros s e [Hi Hb]. split; [apply TimerInv_step, Hi|].
      apply balanced_step; assumption.
    - split; [exact TimerInv_init|reflexivity]. }
  apply H.
Qed.

Lemma Accounted_view (s s' : state) :
  acct_view s' = acct_view s -> Accounted s -> Accounted s'.
Proof.
  unfold acct_view. intros H [H1 H2 H3].
  injection H as E1 E2 E3 E4 E5 E6.
  split; congruence.
Qed.

Lemma acct_view_commit (old : bool * Z) (s : state) :
  acct_view (commit old s) = acct_view s.
Proof.
  unfold acct_view, count_calls.
  rewrite !commit_calls by (intros c; destruct c; try reflexivity; discriminate).
  replace (outstanding (commit old s)) with (outstanding s).
  replace (lost_detections (commit old s)) with (lost_detections s).
  reflexivity.
  all: destruct s as [t r f st m iv n ivs]; unfold commit; cbn [mounted];
    destruct m; [|reflexivity];
    destruct (same_deps old _); [reflexivity|];
    destruct iv, r; try reflexivity; exec; destruct (t =? 0); reflexivity.
Qed.

Ltac counts :=
  unfold count_calls, outstanding, lost_detections; exec;
  rewrite ?filter_app, ?length_app;
  cbn [filter is_detect is_raf is_clearRect is_drawImage is_lost_detection
       Nat.eqb List.length];
  rewrite ?length_app; cbn [List.length].

Lemma Accounted_detectFace (c : closure) (s : state) :
  Accounted s -> Accounted (detectFace c s).
Proof.
  intros [H1 H2 H3].
  destruct s as [t r f st m iv n ivs md ls q pd lg un], c as [[h|]];
    [destruct m, st|]; split; revert H1 H2 H3; counts; lia.
Qed.

Lemma Accounted_fold_detectFace (cs : list closure) (s : state) :
  Accounted s -> Accounted (fold_left (fun st c => detectFace c st) cs s).
Proof.
  revert s. induction cs as [|c cs IH]; intros s H; cbn [fold_left].
  - exact H.
  - apply IH, Accounted_detectFace, H.
Qed.

Lemma arcs_not_counted (p : call -> bool) (ps : list Landmark) :
  (forall x, p (FillArc x) = false) ->
  List.length (filter p (map FillArc ps)) = 0%nat.
Proof. intros Hp. rewrite filter_arcs by exact Hp. reflexivity. Qed.

Lemma Accounted_handle (s : state) (e : event) :
  Accounted s -> Accounted (handle e s).
Proof.
  intros H.
  assert (Hsame : forall s', acct_view s' = acct_view s -> Accounted s').
  { intros s' E. exact (Accounted_view _ _ E H). }
  destruct e; cbn [handle].
  - apply Hsame. destruct s as [t r f st m]. destruct f, m; reflexivity.
  - destruct H as [H1 H2 H3]. destruct s as [t r f st m].
    destruct m, st; split; revert H1 H2 H3; counts; lia.
  - destruct H as [H1 H2 H3]. destruct s as [t r f st m iv n ivs md].
    destruct md, m; split; revert H1 H2 H3; counts; lia.
  - destruct (media s); try exact H.
    apply Accounted_fold_detectFace, Hsame. destruct s; reflexivity.
  - apply Accounted_fold_detectFace, Hsame. destruct s; reflexivity.
  - destruct H as [H1 H2 H3].
    destruct s as [t r f st m iv n ivs md ls q pd lg un].
    destruct pd as [|c rest]; [split; assumption|]. cbn [pending].
    unfold detectFace_resume.
    destruct faceLandmarks as [|lm r']; cbv beta iota zeta; rewrite ?fold_arc;
      destruct m, st; split; revert H1 H2 H3; counts;
      rewrite ?arcs_not_counted by reflexivity; lia.
  - destruct H as [H1 H2 H3].
    destruct s as [t r f st m iv n ivs md ls q pd lg un].
    destruct pd; split; revert H1 H2 H3; counts; lia.
  - rewrite fold_tick. apply Hsame.
    destruct s as [t r f st m]. destruct m; reflexivity.
  - destruct H as [H1 H2 H3]. destruct s as [t r f st m iv].
    destruct m, iv; split; revert H1 H2 H3; counts; lia.
Qed.

Lemma Accounted_run (tr : list event) : Accounted (run init tr).
Proof.
  apply (run_invariant Accounted).
  - intros s e H. unfold step.
    apply (Accounted_view _ _ (acct_view_commit _ _)), Accounted_handle, H.
  - split; reflexivity.
Qed.

Lemma fold_detectFace_listeners (cs : list closure) (s : state) :
  listeners (fold_left (fun st c => detectFace c st) cs s) = listeners s.
Proof.
  revert s. induction cs as [|c cs IH]; intros s; cbn [fold_left].
  - reflexivity.
  - rewrite IH.
    destruct s as [t r f st m iv n ivs md ls q pd lg un], c as [[h|]];
      [destruct m, st|]; reflexivity.
Qed.

Lemma handle_listeners (s : state) (e : event) :
  is_click e = false -> listeners (handle e s) = listeners s.
Proof.
  intros He. destruct e; try discriminate He; cbn [handle].
  - destruct s as [t r f st m]. destruct f, m; reflexivity.
  - destruct s as [t r f st m iv n ivs md]. destruct md, m; reflexivity.
  - destruct (media s); try reflexivity.
    rewrite fold_detectFace_listeners. destruct s; reflexivity.
  - rewrite fold_detectFace_listeners. destruct s; reflexivity.
  - destruct s as [t r f st m iv n ivs md ls q pd lg un].
    destruct pd as [|c rest]; [reflexivity|]. cbn [pending].
    unfold detectFace_resume.
    destruct faceLandmarks as [|lm r']; cbv beta iota zeta; rewrite ?fold_arc;
      destruct m, st; reflexivity.
  - destruct s as [t r f st m iv n ivs md ls q pd lg un].
    destruct pd; reflexivity.
  - rewrite fold_tick. destruct s as [t r f st m]. destruct m; reflexivity.
  - destruct s as [t r f st m iv]. destruct m, iv; reflexivity.
Qed.

Lemma listeners_commit (old : bool * Z) (s : state) :
  listeners (commit old s) = listeners s.
Proof.
  destruct s as [t r f st m iv n ivs]. unfold commit. cbn [mounted].
  destruct m; [|reflexivity].
  destruct (same_deps old _); [reflexivity|].
  destruct iv, r; try reflexivity; exec; destruct (t =? 0); reflexivity.
Qed.

Lemma not_click_no_start_call (e : event) (c : call) :
  is_click e = false -> may_call e c = true ->
  is_getUserMedia c = false /\ is_addEventListener c = false.
Proof. destruct e, c; try (split; reflexivity); discriminate. Qed.

Lemma StartedOnce_handle (s : state) (e : event) :
  StartedOnce s -> StartedOnce (handle e s).
Proof.
  intros [H1 H2 H3]. destruct (is_click e) eqn:He.
  - destruct e; try discriminate He. cbn [handle].
    destruct s as [t r f st m iv n ivs md ls q pd lg un].
    destruct m, st; split; revert H1 H2 H3;
      unfold count_calls; exec; rewrite ?filter_app, ?length_app;
      cbn [filter is_getUserMedia is_addEventListener List.length once];
      rewrite ?length_app; cbn [List.length]; lia.
  - destruct (handle_cells s e) as (_ & _ & _ & Hs).
    split; unfold count_calls; rewrite (Hs He).
    + rewrite handle_calls; [exact H1|].
      intros c Hc. apply (not_click_no_start_call e c He Hc).
    + rewrite handle_calls; [exact H2|].
      intros c Hc. apply (not_click_no_start_call e c He Hc).
    + rewrite handle_listeners by exact He. exact H3.
Qed.

Lemma StartedOnce_run (tr : list event) : StartedOnce (run init tr).
Proof.
  apply (run_invariant StartedOnce).
  - intros s e H. apply (StartedOnce_handle s e) in H. destruct H as [H1 H2 H3].
    unfold step.
    pose proof (cells_commit (timerRunning s, timer s) (handle e s)) as Hc.
    unfold cells in Hc. injection Hc as _ _ _ Hs.
    split; unfold count_calls; rewrite Hs.
    + rewrite commit_calls; [exact H1|].
      intros c; destruct c; try reflexivity; discriminate.
    + rewrite commit_calls; [exact H2|].
      intros c; destruct c; try reflexivity; discriminate.
    + rewrite listeners_commit. exact H3.
  - split; reflexivity.
Qed.

Lemma isStarted_stays (tr : list event) (s : state) :
  isStarted s = true -> isStarted (run s tr) = true.
Proof.
  apply (run_invariant (fun s => isStarted s = true)).
  intros s0 e H.
  pose proof (cells_commit (timerRunning s0, timer s0) (handle e s0)) as Hc.
  unfold cells in Hc. injection Hc as _ _ _ Hs. unfold step. rewrite Hs.
  destruct (is_click e) eqn:He.
  - destruct e; try discriminate He. cbn [handle]. rewrite H, andb_false_r.
    exact H.
  - destruct (handle_cells s0 e) as (_ & _ & _ & Hk). rewrite (Hk He). exact H.
Qed.

Lemma inert_commit (old : bool * Z) (s : state) :
  inert (commit old s) = inert s.
Proof.
  destruct s as [t r f st m iv n ivs]. unfold commit. cbn [mounted].
  destruct m; [|reflexivity].
  destruct (same_deps old _); [reflexivity|].
  destruct iv, r; try reflexivity; exec; destruct (t =? 0); reflexivity.
Qed.

Lemma inert_handle (s : state) (e : event) :
  inert s = true ->
  inert (handle e s) = true /\
  timerRunning (handle e s) = timerRunning s /\
  detect_calls (handle e s) = detect_calls s.
Proof.
  intros H. unfold inert in H.
  apply andb_prop in H as [H Hq]. apply andb_prop in H as [Hs Hl].
  destruct s as [t r f st m iv n ivs md ls q pd lg un].
  cbn [isStarted media listeners pending rafQueue] in *. subst st.
  destruct pd; [|discriminate Hq]. destruct q; [|discriminate Hq].
  assert (Hfin : forall t' r' f' m' iv' n' ivs' md' lg' un',
             (is_loaded md' || forallb no_detector ls = true) ->
             inert (mkState t' r' f' true m' iv' n' ivs' md' ls [] [] lg' un')
             = true).
  { intros. unfold inert. cbn [isStarted media listeners pending rafQueue].
    rewrite H. reflexivity. }
  unfold detect_calls.
  destruct e; cbn [handle].
  - destruct f, m; repeat split; apply Hfin, Hl.
  - destruct m; repeat split; apply Hfin, Hl.
  - destruct md, m; repeat split; apply Hfin; cbn in *; assumption.
  - destruct md; cbn [media]; try (repeat split; apply Hfin, Hl).
    cbn [is_loaded orb] in Hl.
    rewrite fold_detectFace_no_detector by exact Hl.
    repeat split.
  - repeat split; apply Hfin, Hl.
  - repeat split; apply Hfin, Hl.
  - repeat split; apply Hfin, Hl.
  - rewrite fold_tick. destruct m; repeat split; apply Hfin, Hl.
  - destruct m; [|repeat split; apply Hfin, Hl].
    destruct iv; repeat split; exec; rewrite ?filter_app;
      cbn [filter is_detect]; rewrite ?app_nil_r; try reflexivity;
      apply Hfin, Hl.
Qed.

Lemma inert_step (s : state) (e : event) :
  inert s = true ->
  inert (step s e) = true /\
  timerRunning (step s e) = timerRunning s /\
  detect_calls (step s e) = detect_calls s.
Proof.
  intros H. destruct (inert_handle s e H) as (H1 & H2 & H3).
  unfold step. rewrite inert_commit. split; [exact H1|].
  pose proof (cells_commit (timerRunning s, timer s) (handle e s)) as Hc.
  unfold cells in Hc. injection Hc as _ Hr _ _. rewrite Hr.
  split; [exact H2|].
  unfold detect_calls in *. rewrite commit_calls; [exact H3|].
  intros c; destruct c; try reflexivity; discriminate.
Qed.

Lemma inert_run (tr : list event) (s : state) :
  inert s = true ->
  inert (run s tr) = true /\
  timerRunning (run s tr) = timerRunning s /\
  detect_calls (run s tr) = detect_calls s.
Proof.
  revert s. induction tr as [|e tr IH]; intros s H.
  - auto.
  - rewrite run_cons. destruct (inert_step s e H) as (H1 & H2 & H3).
    destruct (IH _ H1) as (H4 & H5 & H6).
    rewrite H5, H6. auto.
Qed.

Lemma inert_not_alive (s : state) : inert s = true -> loop_alive s = false.
Proof.
  unfold inert, loop_alive. intros H. apply andb_prop in H as [_ H].
  destruct (List.length (pending s) + List.length (rafQueue s))%nat;
    [reflexivity|discriminate H].
Qed.

(** A rejected detection call leaves a running loop inert. *)
Lemma rejection_makes_inert (s : state) :
  loop_ok s = true -> awaiting s = true ->
  inert (step s DetectionRejected) = true /\
  timerRunning (step s DetectionRejected) = timerRunning s.
Proof.
  intros Hok Ha. unfold step. rewrite inert_commit.
  remember (handle DetectionRejected s) as s0 eqn:Es0.
  pose proof (cells_commit (timerRunning s, timer s) s0) as Hc.
  unfold cells in Hc. injection Hc as _ Hr _ _. rewrite Hr. clear Hr.
  subst s0.
  destruct s as [t r f st m iv n ivs md ls q pd lg un].
  unfold awaiting in Ha. cbn [mounted isStarted pending rafQueue] in Ha.
  destruct m, st; try discriminate Ha.
  destruct pd as [|c [|]]; try discriminate Ha.
  destruct q; try discriminate Ha.
  unfold loop_ok, outstanding in Hok.
  cbn [pending rafQueue media List.length Nat.add Nat.leb] in Hok.
  destruct md; cbn in Hok; rewrite ?andb_false_r in Hok;
    try discriminate Hok.
  split; reflexivity.
Qed.

(* ---------- the log only grows ---------- *)
Lemma detectFace_log_grows (c : closure) (s : state) :
  exists l, log (detectFace c s) = log s ++ l.
Proof.
  destruct s as [t r f st m iv n ivs md ls q pd lg un], c as [[h|]];
    [destruct m, st|]; exec; eauto using app_nil_r.
  all: exists []; rewrite app_nil_r; reflexivity.
Qed.

Lemma fold_detectFace_log_grows (cs : list closure) (s : state) :
  exists l, log (fold_left (fun st c => detectFace c st) cs s) = log s ++ l.
Proof.
  revert s. induction cs as [|c cs IH]; intros s; cbn [fold_left].
  - exists []. rewrite app_nil_r. reflexivity.
  - destruct (IH (detectFace c s)) as [l1 H1].
    destruct (detectFace_log_grows c s) as [l2 H2].
    exists (l2 ++ l1). rewrite H1, H2, app_assoc. reflexivity.
Qed.

Lemma handle_log_grows (s : state) (e : event) :
  exists l, log (handle e s) = log s ++ l.
Proof.
  assert (Hnil : forall s', log s' = log s -> exists l, log s' = log s ++ l).
  { intros s' E. exists []. rewrite app_nil_r. exact E. }
  destruct e; cbn [handle].
  - apply Hnil. destruct s as [t r f st m]. destruct f, m; reflexivity.
  - destruct s as [t r f st m]. destruct m, st;
      try (apply Hnil; reflexivity).
    exec. rewrite <- app_assoc. eauto.
  - apply Hnil. destruct s as [t r f st m iv n ivs md].
    destruct md, m; reflexivity.
  - destruct (media s); try (apply Hnil; reflexivity).
    destruct (fold_detectFace_log_grows (listeners s) (with_media Loaded s))
      as [l H]. exists l. rewrite H. destruct s; reflexivity.
  - destruct (fold_detectFace_log_grows (rafQueue s) (with_rafQueue [] s))
      as [l H]. exists l. rewrite H. destruct s; reflexivity.
  - destruct s as [t r f st m iv n ivs md ls q pd lg un].
    destruct pd as [|c rest]; [apply Hnil; reflexivity|]. cbn [pending].
    unfold detectFace_resume.
    destruct faceLandmarks as [|lm r']; cbv beta iota zeta; rewrite ?fold_arc;
      destruct m, st; try (apply Hnil; reflexivity);
      exec; rewrite <- ?app_assoc; eauto.
  - apply Hnil. destruct s as [t r f st m iv n ivs md ls q pd lg un].
    destruct pd; reflexivity.
  - apply Hnil. rewrite fold_tick.
    destruct s as [t r f st m]. destruct m; reflexivity.
  - destruct s as [t r f st m iv]. destruct m, iv;
      try (apply Hnil; reflexivity).
    exec. eauto.
Qed.

Lemma commit_log_grows (old : bool * Z) (s : state) :
  exists l, log (commit old s) = log s ++ l.
Proof.
  assert (Hnil : forall s', log s' = log s -> exists l, log s' = log s ++ l).
  { intros s' E. exists []. rewrite app_nil_r. exact E. }
  destruct s as [t r f st m iv n ivs md ls q pd lg un].
  unfold commit. cbn [mounted]. destruct m; [|apply Hnil; reflexivity].
  destruct (same_deps old _); [apply Hnil; reflexivity|].
  destruct iv, r; exec; try destruct (t =? 0);
    rewrite <- ?app_assoc; eauto;
    exists []; rewrite app_nil_r; reflexivity.
Qed.

Lemma step_log_grows (s : state) (e : event) :
  exists l, log (step s e) = log s ++ l.
Proof.
  unfold step.
  destruct (commit_log_grows (timerRunning s, timer s) (handle e s)) as [l1 H1].
  destruct (handle_log_grows s e) as [l2 H2].
  exists (l2 ++ l1). rewrite H1, H2, app_assoc. reflexivity.
Qed.

Lemma run_log_grows (tr : list event) (s : state) :
  exists l, log (run s tr) = log s ++ l.
Proof.
  revert s. induction tr as [|e tr IH]; intros s.
  - exists []. rewrite app_nil_r. reflexivity.
  - rewrite run_cons. destruct (IH (step s e)) as [l1 H1].
    destruct (step_log_grows s e) as [l2 H2].
    exists (l2 ++ l1). rewrite H1, H2, app_assoc. reflexivity.
Qed.

(* ---------- no countdown before the first detection call ---------- *)
Lemma detect_calls_grow (s : state) (e : event) :
  detect_calls (step s e) = [] -> detect_calls s = [].
Proof.
  unfold detect_calls. destruct (step_log_grows s e) as [l H]. rewrite H.
  rewrite filter_app. intros E. apply app_eq_nil in E. apply E.
Qed.

Lemma untouched_step (s : state) (e : event) :
  TimerInv s -> Accounted s -> untouched s -> untouched (step s e).
Proof.
  intros Hinv Hacc Hq Hd.
  pose proof (detect_calls_grow s e Hd) as Hd0.
  destruct (Hq Hd0) as [Hr Ht].
  assert (Hp : pending s = []).
  { destruct Hacc as [H1 _ _]. unfold count_calls in H1.
    fold (detect_calls s) in H1. rewrite Hd0 in H1. cbn in H1.
    unfold outstanding in H1. destruct (pending s); [reflexivity|].
    cbn in H1. lia. }
  split.
  - destruct (is_resolution e) eqn:He.
    + destruct e; try discriminate He. unfold step. cbn [handle]. rewrite Hp.
      rewrite commit_unchanged by reflexivity. exact Hr.
    + destruct (step_writers s e) as (_ & H & _).
      rewrite (H He). exact Hr.
  - rewrite (timer_step s e Hinv), Hr, !andb_false_r. exact Ht.
Qed.

Lemma untouched_run (tr : list event) : untouched (run init tr).
Proof.
  assert (H : TimerInv (run init tr) /\ untouched (run init tr)).
  { revert tr. apply (rev_ind (fun tr => TimerInv (run init tr) /\ untouched (run init tr))).
    - split; [exact TimerInv_init|]. intros _. split; reflexivity.
    - intros e tr [Hi Hu]. rewrite run_app. cbn [run fold_left].
      split; [apply TimerInv_step, Hi|].
      apply untouched_step; [exact Hi|apply Accounted_run|exact Hu]. }
  apply H.
Qed.

Lemma uses_detector_loaded (h : FaceLandmarker) (l : list call) :
  forallb (uses_detector None) l = true ->
  forallb (uses_detector (Some h)) l = true.
Proof.
  induction l as [|c l IH]; [reflexivity|].
  cbn [forallb]. intros H. apply andb_prop in H as [Hc Hl].
  rewrite (IH Hl), andb_true_r. destruct c; try reflexivity. discriminate Hc.
Qed.

Lemma uses_arcs (f : option FaceLandmarker) (ps : list Landmark) :
  forallb (uses_detector f) (map FillArc ps) = true.
Proof. induction ps as [|x ps IH]; [reflexivity|]. destruct f; exact IH. Qed.

Lemma consistent_commit (old : bool * Z) (s : state) :
  detector_consistent (commit old s) = detector_consistent s.
Proof.
  unfold detector_consistent.
  destruct s as [t r f st m iv n ivs md ls q pd lg un].
  unfold commit. cbn [mounted]. destruct m; [|reflexivity].
  destruct (same_deps old _); [reflexivity|].
  destruct iv, r; exec; try destruct (t =? 0);
    rewrite ?forallb_app; cbn [forallb uses_detector];
    destruct f; rewrite ?andb_true_r; reflexivity.
Qed.

Lemma consistent_detectFace (c : closure) (s : state) :
  captured_ok (faceLandmarker s) c = true ->
  detector_consistent s = true ->
  detector_consistent (detectFace c s) = true /\
  faceLandmarker (detectFace c s) = faceLandmarker s.
Proof.
  unfold detector_consistent, captured_ok.
  destruct s as [t r f st m iv n ivs md ls q pd lg un], c as [[h|]];
    cbn [captured faceLandmarker log]; intros Hc H;
    [destruct m, st, f; try discriminate Hc|]; split; exec;
    rewrite ?forallb_app, ?H; cbn [forallb uses_detector];
    rewrite ?Hc; reflexivity.
Qed.

Lemma consistent_fold_detectFace (cs : list closure) (s : state) :
  forallb (captured_ok (faceLandmarker s)) cs = true ->
  detector_consistent s = true ->
  detector_consistent (fold_left (fun st c => detectFace c st) cs s) = true.
Proof.
  revert s. induction cs as [|c cs IH]; intros s Hcs H; cbn [fold_left].
  - exact H.
  - cbn [forallb] in Hcs. apply andb_prop in Hcs as [Hc Hcs].
    destruct (consistent_detectFace c s Hc H) as [H1 H2].
    apply IH; [rewrite H2; exact Hcs|exact H1].
Qed.

Lemma loop_ok_closures (s : state) :
  loop_ok s = true ->
  forallb (captured_ok (faceLandmarker s)) (listeners s) = true /\
  forallb (captured_ok (faceLandmarker s)) (rafQueue s) = true.
Proof.
  intros H. unfold loop_ok in H. apply andb_prop in H as [_ H]. split.
  - apply (forallb_app_l _ _ _ H).
  - apply forallb_app_r in H. apply (forallb_app_l _ _ _ H).
Qed.

Lemma consistent_handle (s : state) (e : event) :
  loop_ok s = true -> detector_consistent s = true ->
  detector_consistent (handle e s) = true.
Proof.
  intros Hok H. destruct (loop_ok_closures s Hok) as [Hl Hq].
  destruct e; cbn [handle].
  - unfold detector_consistent in *.
    destruct s as [t r f st m]. destruct f, m; try exact H.
    apply uses_detector_loaded, H.
  - unfold detector_consistent in *.
    destruct s as [t r f st m]. destruct m, st; try exact H.
    exec. rewrite !forallb_app. cbn [log faceLandmarker] in H. rewrite H.
    destruct f; reflexivity.
  - unfold detector_consistent in *.
    destruct s as [t r f st m iv n ivs md]. destruct md, m; exact H.
  - destruct (media s); try exact H.
    apply consistent_fold_detectFace; destruct s; assumption.
  - apply consistent_fold_detectFace; destruct s; assumption.
  - unfold detector_consistent in *.
    destruct s as [t r f st m iv n ivs md ls q pd lg un].
    destruct pd as [|c rest]; [exact H|]. cbn [pending].
    unfold detectFace_resume. cbn [log faceLandmarker] in H.
    destruct faceLandmarks as [|lm r']; cbv beta iota zeta; rewrite ?fold_arc;
      destruct m, st; try exact H; exec;
      rewrite ?forallb_app, ?H, ?uses_arcs; cbn [forallb uses_detector];
      destruct f; reflexivity.
  - unfold detector_consistent in *.
    destruct s as [t r f st m iv n ivs md ls q pd lg un].
    destruct pd; exact H.
  - rewrite fold_tick. unfold detector_consistent in *.
    destruct s as [t r f st m]. destruct m; exact H.
  - unfold detector_consistent in *.
    destruct s as [t r f st m iv]. cbn [log faceLandmarker] in H.
    destruct m, iv; try exact H; exec;
      rewrite ?forallb_app, ?H; cbn [forallb uses_detector];
      destruct f; reflexivity.
Qed.

Lemma consistent_run (tr : list event) :
  detector_consistent (run init tr) = true.
Proof.
  assert (H : loop_ok (run init tr) = true /\
              detector_consistent (run init tr) = true).
  { apply (run_invariant (fun s => loop_ok s = true /\ detector_consistent s = true)).
    - intros s e [Hok Hc]. split; [apply loop_ok_step, Hok|].
      unfold step. rewrite consistent_commit.
      apply consistent_handle; assumption.
    - split; reflexivity. }
  apply H.
Qed.

Lemma detector_stays (tr : list event) (s : state) (h : FaceLandmarker) :
  faceLandmarker s = Some h -> faceLandmarker (run s tr) = Some h.
Proof.
  apply (run_invariant (fun s => faceLandmarker s = Some h)).
  intros s0 e H.
  pose proof (cells_commit (timerRunning s0, timer s0) (handle e s0)) as Hc.
  unfold cells in Hc. injection Hc as _ _ Hf _. unfold step. rewrite Hf.
  destruct (is_detector_loaded e) eqn:He.
  - destruct e; try discriminate He. cbn [handle]. rewrite H. exact H.
  - destruct (handle_cells s0 e) as (_ & _ & Hk & _). rewrite (Hk He). exact H.
Qed.

Lemma detect_calls_step (s : state) (e : event) :
  is_frame_tick e = false -> detect_calls (step s e) = detect_calls s.
Proof.
  intros He. unfold detect_calls, step.
  rewrite commit_calls by (intros c; destruct c; try reflexivity; discriminate).
  apply handle_calls. intros c Hc. destruct e, c; try reflexivity; discriminate.
Qed.



End RunFacts.

(** ** The refs while the component is mounted *)

Module RefFacts.
Import Component ComponentFacts Observations RunFacts.









End RefFacts.


(** ** Further properties of the component *)

Module Extras.
Import Display DisplayFacts Component ComponentFacts Observations
  ReadoutFacts RunFacts.

(** X1.  While the frame loop runs, the countdown counts the seconds with
    a face: after the seconds of any sequence of detection outcomes
    [timer] has lost the number of present ones, [timerRunning] is the
    last outcome, and the loop is still running; any number of seconds
    without a face leaves [timer] where it was. *)
Theorem countdown_counts_seconds_with_a_face (tr : list event)
  (os : list outcome) :
  let s := run init tr in
  awaiting s = true ->
  let s' := run s (flat_map second os) in
  timer s' = timer s - count_present os /\
  timerRunning s' = last_present os (timerRunning s) /\
  awaiting s' = true /\
  (forall n, timer (run s (flat_map second (repeat absent n))) = timer s).
Proof.
  intros s Ha s'.
  pose proof (TimerInv_run tr) as Hinv.
  destruct (seconds_state os s Hinv Ha) as (_ & Ha' & Hr).
  repeat split; auto.
  - apply seconds_effect; assumption.
  - intros n. rewrite seconds_effect, count_present_absent by assumption. lia.
Qed.

Lemma countdown_counts_seconds_with_a_face_witness :
  let s := run init (start_up 7%nat) in
  timer (run s (flat_map second [present; absent; absent])) = 1799 /\
  timerRunning (run s (flat_map second [present; absent; absent])) = false.
Proof.
  intros s.
  destruct (countdown_counts_seconds_with_a_face (start_up 7%nat)
              [present; absent; absent] eq_refl) as (H1 & H2 & _).
  split; [exact H1|exact H2].
Defined.

(** X2.  The countdown never goes up: in every state that a run reaches,
    an event takes at most 1 off [timer] and never adds to it, so [timer]
    is no larger after any continuation of the run. *)
Theorem countdown_never_goes_up (tr : list event) (e : event) :
  let s := run init tr in
  timer s - 1 <= timer (step s e) <= timer s /\
  (forall tr', timer (run s tr') <= timer s).
Proof.
  intros s. split.
  - rewrite (timer_step s e (TimerInv_run tr)).
    destruct (is_tick e && (mounted s && timerRunning s)); lia.
  - intros tr'. apply (timer_bounds tr' s (TimerInv_run tr)).
Qed.

(** X3.  Each state cell has one writer, in any state: only a tick of the
    interval changes [timer], only a resolved detection changes
    [timerRunning], only the loader changes [faceLandmarker], only the
    Start click changes [isStarted]. *)
Theorem each_cell_has_one_writer (s : state) (e : event) :
  (is_tick e = false -> timer (step s e) = timer s) /\
  (is_resolution e = false -> timerRunning (step s e) = timerRunning s) /\
  (is_detector_loaded e = false ->
   faceLandmarker (step s e) = faceLandmarker s) /\
  (is_click e = false -> isStarted (step s e) = isStarted s).
Proof. exact (step_writers s e). Qed.

Lemma each_cell_has_one_writer_witness :
  let s := run init (start_up 7%nat) in
  timer (step s (DetectionResolved [[0%nat]])) = 1800 /\
  timerRunning (step s Tick) = false.
Proof.
  intros s.
  destruct (each_cell_has_one_writer s (DetectionResolved [[0%nat]])) as (H & _).
  destruct (each_cell_has_one_writer s Tick) as (_ & H' & _).
  split; [exact (H eq_refl)|exact (H' eq_refl)].
Defined.

(** X4.  The timer effect leaks no interval: after every run there is one
    live interval when the component is mounted with [timerRunning] true
    and none otherwise, and the [setInterval] calls made so far are the
    [clearInterval] calls plus the live interval. *)
Theorem one_interval_while_running (tr : list event) :
  let s := run init tr in
  List.length (intervals s)
  = (if mounted s && timerRunning s then 1 else 0)%nat /\
  count_calls is_set s
  = (count_calls is_clear s + List.length (intervals s))%nat.
Proof.
  intros s. destruct (TimerInv_run tr) as [H1 H2]. fold s in H1, H2.
  split; [|exact (balanced_run tr)]. rewrite H1, <- H2.
  destruct (interval s); reflexivity.
Qed.

(** X5.  Start is taken at most once: after every run [getUserMedia] was
    called and the 'loadeddata' listener registered exactly once if the
    canvas is rendered and never if the Start button is, one of the two
    being rendered; and once the button is gone it does not come back. *)
Theorem start_is_one_shot (tr tr' : list event) :
  let s := run init tr in
  let shown := negb (start_button (render s)) in
  count_calls is_getUserMedia s = once shown /\
  count_calls is_addEventListener s = once shown /\
  List.length (listeners s) = once shown /\
  canvas_element (render s)
  = (if shown then Some (canvasWidth, canvasHeight) else None) /\
  (shown = true -> start_button (render (run s tr')) = false).
Proof.
  intros s shown. destruct (StartedOnce_run tr) as [H1 H2 H3].
  fold s in H1, H2, H3. subst shown. cbn [render start_button canvas_element].
  rewrite negb_involutive. repeat split; auto.
  intros Hs. rewrite (isStarted_stays tr' s Hs). reflexivity.
Qed.

Lemma start_is_one_shot_witness :
  let s := run init [ClickStart] in
  start_button (render (run s [ClickStart; Tick; ClickStart])) = false.
Proof.
  intros s.
  destruct (start_is_one_shot [ClickStart] [ClickStart; Tick; ClickStart])
    as (_ & _ & _ & _ & H).
  exact (H eq_refl).
Defined.


(** X7.  Every detection call is accounted for: after every run the
    [detectForVideo] calls made are those still outstanding, those that
    resolved and re-armed the loop, and those lost (rejected, or resolved
    after the canvas was gone); and the canvas was cleared and the frame
    drawn exactly once per re-arm. *)
Theorem detection_calls_accounted (tr : list event) :
  let s := run init tr in
  count_calls is_detect s
  = (outstanding s + count_calls is_raf s + lost_detections s)%nat /\
  count_calls is_clearRect s = count_calls is_raf s /\
  count_calls is_drawImage s = count_calls is_raf s.
Proof.
  intros s. destruct (Accounted_run tr) as [H1 H2 H3]. auto.
Qed.

(** X8.  After the component is unmounted nothing happens any more: in
    any unmounted state, whatever events follow, the four state cells,
    the timers and the call log stay as they are, and the suspended and
    scheduled callbacks can only get fewer. *)
Theorem nothing_happens_after_unmount (s : state) (tr : list event) :
  mounted s = false ->
  core (run s tr) = core s /\
  (List.length (pending (run s tr)) <= List.length (pending s))%nat /\
  (List.length (rafQueue (run s tr)) <= List.length (rafQueue s))%nat.
Proof. apply unmounted_run. Qed.

Lemma nothing_happens_after_unmount_witness :
  let s := run init (start_up 7%nat ++ [Unmount]) in
  log (run s [DetectionResolved [[0%nat]]; AnimationFrame; Tick]) = log s.
Proof.
  intros s.
  destruct (nothing_happens_after_unmount s
              [DetectionResolved [[0%nat]]; AnimationFrame; Tick] eq_refl)
    as (H & _).
  exact (f_equal snd H).
Defined.

(** X9.  A rejected detection call ends the frame loop for good: from a
    running loop, after the rejection and whatever follows, the loop is
    not alive, no further detection call is made and [timerRunning] keeps
    the value it had, so that the countdown goes on on every tick of a
    mounted component if a face was present last. *)
Theorem rejected_detection_ends_the_loop (tr tr' : list event) :
  let s := run init tr in
  awaiting s = true ->
  let s' := run (step s DetectionRejected) tr' in
  loop_alive s' = false /\
  detect_calls s' = detect_calls s /\
  timerRunning s' = timerRunning s /\
  (mounted s' = true ->
   timer (step s' Tick) = if timerRunning s then timer s' - 1 else timer s').
Proof.
  intros s Ha s'.
  destruct (rejection_makes_inert s (loop_ok_run tr) Ha) as [Hi Hr].
  destruct (inert_run tr' _ Hi) as (Hi' & Hr' & Hd'). fold s' in Hi', Hr', Hd'.
  split; [apply inert_not_alive, Hi'|].
  split; [rewrite Hd'; apply detect_calls_step; reflexivity|].
  split; [rewrite Hr'; exact Hr|].
  intros Hm. subst s' s.
  change (step (run init tr) DetectionRejected)
    with (run (run init tr) [DetectionRejected]) in *.
  rewrite <- !run_app in *.
  rewrite tick_effect by apply TimerInv_run.
  rewrite Hm, Hr', Hr. reflexivity.
Qed.

Lemma rejected_detection_ends_the_loop_witness :
  let s := run init (start_up 7%nat ++ second present) in
  let s' := run (step s DetectionRejected) [Tick; AnimationFrame; Tick] in
  timerRunning s' = true /\ timer s' = 1797 /\
  detect_calls s' = detect_calls s.
Proof.
  intros s s'.
  destruct (rejected_detection_ends_the_loop (start_up 7%nat ++ second present)
              [Tick; AnimationFrame; Tick] eq_refl) as (_ & Hd & Hr & _).
  split; [exact Hr|]. split; [reflexivity|exact Hd].
Defined.

(** X10.  The countdown waits for the detector: as long as a run has made
    no detection call, [timerRunning] is false and [timer] is 1800; in
    particular, after a Start pressed before the detector was loaded the
    readout stays at 1800 whatever follows. *)
Theorem countdown_waits_for_detection (tr : list event) :
  let s := run init tr in
  detect_calls s = [] ->
  timerRunning s = false /\ timer s = 1800 /\
  (forall tr', timer (run init (ClickStart :: tr')) = 1800).
Proof.
  intros s Hd. destruct (untouched_run tr Hd) as [Hr Ht].
  repeat split; auto.
  intros tr'. apply (untouched_run (ClickStart :: tr')).
  pose proof (never_armed_run (step init ClickStart) tr' eq_refl) as H.
  rewrite <- run_cons in H. unfold never_armed in H.
  apply andb_prop in H as [_ H].
  change (detect_calls (run init (ClickStart :: tr')) = []).
  destruct (detect_calls (run init (ClickStart :: tr')));
    [reflexivity|discriminate H].
Qed.

Lemma countdown_waits_for_detection_witness :
  timer (run init [ClickStart; DetectorLoaded 7%nat; StreamGranted; Tick])
  = 1800.
Proof.
  destruct (countdown_waits_for_detection
              [ClickStart; DetectorLoaded 7%nat; StreamGranted; Tick] eq_refl)
    as (_ & H & _).
  exact H.
Defined.

(** X11.  The detector is loaded once and is the one that is used: once
    [faceLandmarker] holds a detector it holds it for good, and every
    [detectForVideo] call in the log of a run was made on the detector
    that the state holds. *)
Theorem detection_uses_the_loaded_detector (tr tr' : list event)
  (h : FaceLandmarker) :
  let s := run init tr in
  (faceLandmarker s = Some h -> faceLandmarker (run s tr') = Some h) /\
  (In (DetectForVideo h) (log s) -> faceLandmarker s = Some h).
Proof.
  intros s. split; [apply detector_stays|].
  intros Hin. pose proof (consistent_run tr) as H. fold s in H.
  unfold detector_consistent in H. rewrite forallb_forall in H.
  specialize (H _ Hin). cbn [uses_detector] in H.
  destruct (faceLandmarker s) as [h'|]; [|discriminate H].
  apply Nat.eqb_eq in H. congruence.
Qed.

Lemma detection_uses_the_loaded_detector_witness :
  let s := run init (start_up 7%nat) in
  faceLandmarker (run s [DetectorLoaded 8%nat; Tick]) = Some 7%nat.
Proof.
  intros s.
  destruct (detection_uses_the_loaded_detector (start_up 7%nat)
              [DetectorLoaded 8%nat; Tick] 7%nat) as [H _].
  exact (H eq_refl).
Defined.

Local Open Scope string_scope.

(** X12.  The readout is unambiguous, below zero as well: the number of
    seconds can be read back from the text of line 149, so two different
    values of [timer] never show the same text. *)
Theorem readout_is_unambiguous (s1 s2 : Z) :
  read_back (display s1) = Some s1 /\
  (display s1 = display s2 -> s1 = s2).
Proof.
  split; [apply read_back_display|apply display_injective].
Qed.

Lemma readout_is_unambiguous_witness :
  read_back "29:59" = Some 1799 /\ 1799 = 1799.
Proof.
  destruct (readout_is_unambiguous 1799 1799) as [H1 H2].
  split; [exact H1|exact (H2 eq_refl)].
Defined.

(** X13.  For the first thirty minutes the text is well formed: after
    every run in which at most 1800 seconds have ticked, the rendered
    readout is "Time remaining: " followed by minutes, a colon and two
    digits of seconds. *)
Theorem readout_keeps_its_shape (tr : list event) :
  ticks tr <= 1800 ->
  exists d,
    readout (render (run init tr)) = "Time remaining: " ++ d /\
    is_M_SS d = true.
Proof.
  intros Ht. exists (display (timer (run init tr))). split; [reflexivity|].
  apply display_nonneg_is_M_SS.
  pose proof (timer_bounds tr init TimerInv_init) as Hb.
  change (timer init) with 1800 in Hb. lia.
Qed.

Lemma readout_keeps_its_shape_witness :
  exists d,
    readout (render (run init (start_up 7%nat ++ second present)))
    = "Time remaining: " ++ d /\ is_M_SS d = true.
Proof.
  apply readout_keeps_its_shape. vm_compute. discriminate.
Defined.



End Extras.

(** ** Facts about the second copy *)

Module Component2Facts.
Import Component ComponentFacts Observations Component2.

Ltac exec2 :=
  cbv [Component2.step2 Component2.commit2 same_deps same_detector
       Component2.timerEffect Component2.timerEffect_from
       Component2.timerCleanup armingEffect mountEffect on_base draw
       Component2.detectFace_resume Component2.detectFace drawFace
       Component2.handle2 Component2.canvasRef base drawing
       setTimer setTimerRunning setFaceLandmarker setIsStarted
       requestAnimationFrame clearInterval setInterval emit throw
       videoRef canvasWidth canvasHeight
       with_timer with_timerRunning with_faceLandmarker with_isStarted
       with_mounted with_interval with_nextId with_intervals with_media
       with_listeners with_rafQueue with_pending with_log with_uncaught
       timer timerRunning faceLandmarker isStarted mounted interval nextId
       intervals media listeners rafQueue pending log uncaught
       captured fst snd andb orb negb Bool.eqb].

Lemma run2_cons (s : state2) (e : event) (tr : list event) :
  run2 s (e :: tr) = run2 (step2 s e) tr.
Proof. reflexivity. Qed.

Lemma run2_invariant (P : state2 -> Prop) :
  (forall s e, P s -> P (step2 s e)) ->
  forall tr s, P s -> P (run2 s tr).
Proof.
  intros Hstep tr. induction tr as [|e tr IH]; intros s Hs.
  - exact Hs.
  - rewrite run2_cons. apply IH, Hstep, Hs.
Qed.

Lemma commit_fields (old : bool * Z * option FaceLandmarker) (b : state) :
  loop_fields (commit2 old b) = loop_fields b /\
  listeners (commit2 old b)
  = if mounted b && negb (same_detector (snd old) (faceLandmarker b))
    then listeners b ++ [mkClosure (faceLandmarker b)]
    else listeners b.
Proof.
  destruct b as [t r f st m iv n ivs md ls q pd lg un].
  unfold commit2. cbn [mounted faceLandmarker]. destruct m; [|split; reflexivity].
  destruct (same_deps (fst old) _).
  - cbn [faceLandmarker]. destruct (same_detector (snd old) f);
      split; reflexivity.
  - destruct iv, r; exec2; try destruct (t =? 0);
      destruct (match snd old with Some _ => _ | None => _ end);
      split; reflexivity.
Qed.

Ltac shape :=
  first [ solve [apply shape_unloaded; reflexivity]
        | solve [eapply shape_idle; reflexivity]
        | solve [eapply shape_scheduled; reflexivity]
        | solve [eapply shape_suspended; reflexivity] ].

Lemma loop_fields_inv (b b' : state) :
  loop_fields b' = loop_fields b ->
  faceLandmarker b' = faceLandmarker b /\ media b' = media b /\
  rafQueue b' = rafQueue b /\ pending b' = pending b.
Proof.
  unfold loop_fields. intros H.
  assert (Hf := f_equal (fun x => fst (fst (fst x))) H).
  assert (Hm := f_equal (fun x => snd (fst (fst x))) H).
  assert (Hq := f_equal (fun x => snd (fst x)) H).
  assert (Hp := f_equal snd H). cbn [fst snd] in Hf, Hm, Hq, Hp.
  repeat split; assumption.
Qed.

Lemma loop_shape_fields (b b' : state) :
  loop_fields b' = loop_fields b -> listeners b' = listeners b ->
  loop_shape b -> loop_shape b'.
Proof.
  intros H Hl Hs. destruct (loop_fields_inv _ _ H) as (Hf & Hm & Hq & Hp).
  destruct Hs as [A B C D|h A B C D|h A B M C D|h A B M C D];
    [apply shape_unloaded|apply (shape_idle _ h)|apply (shape_scheduled _ h)
    |apply (shape_suspended _ h)]; congruence.
Qed.

(** A callback other than the loader's keeps the shape and the detector. *)
Lemma loop_shape_handle (s : state2) (e : event) :
  is_detector_loaded e = false ->
  loop_shape (base s) ->
  loop_shape (base (handle2 e s)) /\
  faceLandmarker (base (handle2 e s)) = faceLandmarker (base s).
Proof.
  intros He H. destruct s as [[t r f st m iv n ivs md ls q pd lg un] dr].
  cbn [base] in H.
  destruct e; try discriminate He; cbn [handle2 base].
  7: { cbn [on_base base intervals]. rewrite fold_tick.
       split; [|destruct m; reflexivity].
       refine (loop_shape_fields _ _ _ _ H); destruct m; reflexivity. }
  all: destruct H as [A B C D|h A B C D|h A B M C D|h A B M C D];
    cbn [faceLandmarker listeners rafQueue pending media] in *; subst;
    first [ split; [shape|reflexivity]
          | destruct m; (split; [shape|reflexivity])
          | destruct m, md; (split; [shape|reflexivity])
          | destruct m, faceLandmarks; (split; [shape|reflexivity])
          | destruct m, iv; (split; [shape|reflexivity]) ].
Qed.

Lemma same_detector_refl (f : option FaceLandmarker) : same_detector f f = true.
Proof. destruct f; [apply Nat.eqb_refl|reflexivity]. Qed.

Lemma loop_shape_init : loop_shape (base init2).
Proof. apply shape_unloaded; reflexivity. Qed.

Lemma loop_shape_step (s : state2) (e : event) :
  loop_shape (base s) -> loop_shape (base (step2 s e)).
Proof.
  intros H. unfold step2. cbn [on_base base].
  destruct (is_detector_loaded e) eqn:He.
  - destruct e; try discriminate He.
    destruct s as [[t r f st m iv n ivs md ls q pd lg un] dr].
    cbn [base handle2 faceLandmarker timer timerRunning] in *.
    destruct f as [h0|].
    + destruct (commit_fields (r, t, Some h0)
                  (mkState t r (Some h0) st m iv n ivs md ls q pd lg un))
        as [F L].
      cbn [snd faceLandmarker] in L.
      rewrite same_detector_refl, andb_false_r in L.
      exact (loop_shape_fields _ _ F L H).
    + destruct H as [A B C D|h' A B C D|h' A B M C D|h' A B M C D];
        cbn [faceLandmarker listeners rafQueue pending media] in *;
        try discriminate A; subst.
      destruct m.
      * cbn [on_base base setFaceLandmarker mounted with_faceLandmarker].
        match goal with |- loop_shape (commit2 ?o ?b) =>
          destruct (commit_fields o b) as [F L] end.
        cbn [snd faceLandmarker mounted same_detector andb negb listeners] in L.
        destruct (loop_fields_inv _ _ F) as (F1 & _ & F3 & F4).
        apply (shape_idle _ h); [rewrite F1|rewrite L|rewrite F3|rewrite F4];
          reflexivity.
      * apply shape_unloaded; reflexivity.
  - destruct (loop_shape_handle s e He H) as [H' F'].
    destruct (commit_fields
                (timerRunning (base s), timer (base s), faceLandmarker (base s))
                (base (handle2 e s))) as [F L].
    cbn [snd] in L. rewrite F', same_detector_refl, andb_false_r in L.
    exact (loop_shape_fields _ _ F L H').
Qed.

Lemma loop_shape_run (tr : list event) : loop_shape (base (run2 init2 tr)).
Proof.
  apply (run2_invariant (fun s => loop_shape (base s))).
  - exact loop_shape_step.
  - exact loop_shape_init.
Qed.

(** *** The log *)

Ltac logs :=
  cbn [base log on_base]; rewrite ?filter_app; cbn [filter];
  rewrite ?app_nil_r; try reflexivity.

Section Filters2.
Variable p : call -> bool.
Hypothesis p_set : forall i, p (SetInterval i) = false.
Hypothesis p_clear : forall l i, p (ClearInterval l i) = false.
Hypothesis p_listen : forall c, p (AddEventListener c) = false.

Lemma commit_calls2 (old : bool * Z * option FaceLandmarker) (b : state) :
  filter p (log (commit2 old b)) = filter p (log b).
Proof.
  destruct b as [t r f st m iv n ivs md ls q pd lg un].
  unfold commit2. cbn [mounted faceLandmarker]. destruct m; [|reflexivity].
  destruct (same_deps (fst old) _).
  - cbn [faceLandmarker]. destruct (same_detector (snd old) f); exec2;
      rewrite ?filter_app; cbn [filter]; rewrite ?p_listen, ?app_nil_r;
      reflexivity.
  - destruct iv, r; exec2; try destruct (t =? 0);
      destruct (match snd old with Some _ => _ | None => _ end);
      rewrite ?filter_app; cbn [filter];
      rewrite ?p_listen, ?p_set, ?p_clear, ?app_nil_r; reflexivity.
Qed.

End Filters2.

Lemma detect_calls_commit (old : bool * Z * option FaceLandmarker) (b : state) :
  detect_calls (commit2 old b) = detect_calls b.
Proof. apply commit_calls2; reflexivity. Qed.

Lemma commit_log_grows2 (old : bool * Z * option FaceLandmarker) (b : state) :
  exists l, log (commit2 old b) = (log b ++ l)%list.
Proof.
  destruct b as [t r f st m iv n ivs md ls q pd lg un].
  unfold commit2. cbn [mounted faceLandmarker].
  destruct m; [|exists []; symmetry; apply app_nil_r].
  destruct (same_deps (fst old) _).
  - cbn [faceLandmarker]. destruct (same_detector (snd old) f); exec2;
      rewrite <- ?app_assoc; eexists; try reflexivity.
    symmetry; apply app_nil_r.
  - destruct iv, r; exec2; try destruct (t =? 0);
      destruct (match snd old with Some _ => _ | None => _ end);
      rewrite <- ?app_assoc; eexists; try reflexivity;
      symmetry; apply app_nil_r.
Qed.

(** Without a detector a callback makes no detection call. *)
Lemma unloaded_handle (s : state2) (e : event) :
  is_detector_loaded e = false ->
  loop_shape (base s) -> faceLandmarker (base s) = None ->
  detect_calls (base (handle2 e s)) = detect_calls (base s).
Proof.
  intros He H Hf. destruct s as [[t r f st m iv n ivs md ls q pd lg un] dr].
  cbn [base faceLandmarker] in *. subst f.
  destruct e; try discriminate He; cbn [handle2 base].
  7: { cbn [on_base base intervals]. rewrite fold_tick.
       destruct m; reflexivity. }
  all: destruct H as [A B C D|h A B C D|h A B M C D|h A B M C D];
    cbn [faceLandmarker listeners rafQueue pending media] in *;
    try discriminate A; subst; unfold detect_calls;
    first [ reflexivity
          | destruct m; reflexivity
          | destruct m, md; reflexivity
          | destruct m, iv; exec2; logs ].
Qed.

Lemma unloaded_step (s : state2) (e : event) :
  is_detector_loaded e = false ->
  loop_shape (base s) -> faceLandmarker (base s) = None ->
  faceLandmarker (base (step2 s e)) = None /\
  detect_calls (base (step2 s e)) = detect_calls (base s).
Proof.
  intros He H Hf. unfold step2. cbn [on_base base]. split.
  - destruct (commit_fields
                (timerRunning (base s), timer (base s), faceLandmarker (base s))
                (base (handle2 e s))) as [F _].
    destruct (loop_fields_inv _ _ F) as (F1 & _). rewrite F1.
    destruct (loop_shape_handle s e He H) as [_ F']. congruence.
  - rewrite detect_calls_commit. apply unloaded_handle; assumption.
Qed.

(** Once inert, always inert, and no detection call is made. *)
Lemma inert_step2 (s : state2) (e : event) :
  inert2 (base s) = true ->
  inert2 (base (step2 s e)) = true /\
  detect_calls (base (step2 s e)) = detect_calls (base s).
Proof.
  intros H. unfold step2. cbn [on_base base].
  match goal with |- inert2 (commit2 ?o ?b) = _ /\ _ =>
    destruct (commit_fields o b) as [F _];
    destruct (loop_fields_inv _ _ F) as (_ & F2 & F3 & F4) end.
  unfold inert2 at 1. rewrite F2, F3, F4, detect_calls_commit.
  clear F F2 F3 F4.
  destruct s as [[t r f st m iv n ivs md ls q pd lg un] dr].
  unfold inert2 in H. cbn [base media pending rafQueue] in H.
  destruct md; try discriminate H.
  destruct pd; [|discriminate H]. destruct q; [|discriminate H].
  destruct e; cbn [handle2 base media pending rafQueue faceLandmarker].
  8: { cbn [on_base base intervals]. rewrite fold_tick.
       destruct m; split; reflexivity. }
  all: first [ split; reflexivity
             | destruct m; split; reflexivity
             | destruct m, f; split; reflexivity
             | destruct m, iv;
               (split; [reflexivity|unfold detect_calls; exec2; logs]) ].
Qed.

Lemma inert_run2 (tr : list event) (s : state2) :
  inert2 (base s) = true ->
  detect_calls (base (run2 s tr)) = detect_calls (base s).
Proof.
  revert s. induction tr as [|e tr IH]; intros s H; [reflexivity|].
  rewrite run2_cons. destruct (inert_step2 s e H) as [H1 H2].
  rewrite (IH _ H1). exact H2.
Qed.

Lemma unloaded_run (tr : list event) (s : state2) :
  no_loader_event tr = true ->
  loop_shape (base s) -> faceLandmarker (base s) = None ->
  loop_shape (base (run2 s tr)) /\
  faceLandmarker (base (run2 s tr)) = None /\
  detect_calls (base (run2 s tr)) = detect_calls (base s).
Proof.
  revert s. induction tr as [|e tr IH]; intros s Htr H Hf.
  - repeat split; assumption.
  - cbn [no_loader_event forallb] in Htr. apply andb_prop in Htr.
    destruct Htr as [He Htr]. apply negb_true_iff in He.
    rewrite run2_cons.
    destruct (unloaded_step s e He H Hf) as [Hf' Hd].
    destruct (IH (step2 s e) Htr (loop_shape_step s e H) Hf') as (A & B & C).
    repeat split; [exact A|exact B|congruence].
Qed.

Lemma run2_app (s : state2) (tr1 tr2 : list event) :
  run2 s (tr1 ++ tr2) = run2 (run2 s tr1) tr2.
Proof. apply fold_left_app. Qed.

(** Before 'loadeddata' no detection call is made. *)
Lemma before_loadeddata_step (s : state2) (e : event) :
  loop_shape (base s) ->
  is_loaded (media (base (step2 s e))) = false ->
  is_loaded (media (base s)) = false /\
  detect_calls (base (step2 s e)) = detect_calls (base s).
Proof.
  intros H. unfold step2. cbn [on_base base].
  match goal with |- is_loaded (media (commit2 ?o ?b)) = _ -> _ =>
    destruct (commit_fields o b) as [F _];
    destruct (loop_fields_inv _ _ F) as (_ & F2 & _) end.
  rewrite F2, detect_calls_commit. clear F F2.
  destruct s as [[t r f st m iv n ivs md ls q pd lg un] dr].
  cbn [base] in H.
  destruct e; cbn [handle2 base faceLandmarker].
  8: { cbn [on_base base intervals]. rewrite fold_tick.
       destruct m; intros E; split; solve [exact E|reflexivity]. }
  all: destruct H as [A B C D|h' A B C D|h' A B M C D|h' A B M C D];
    cbn [faceLandmarker listeners rafQueue pending media] in *; subst;
    first [ intros E; split; [exact E|reflexivity]
          | destruct m; intros E; split; solve [exact E|reflexivity]
          | destruct m, md; intros E; split;
            solve [exact E|reflexivity|discriminate E]
          | destruct m; intros E; lazy in E; discriminate E
          | destruct m, faceLandmarks; intros E; lazy in E; discriminate E
          | destruct m, iv; intros E;
            (split; [exact E|unfold detect_calls; exec2; logs; fail]) ].
Qed.

Lemma before_loadeddata_run (tr : list event) :
  is_loaded (media (base (run2 init2 tr))) = false ->
  detect_calls (base (run2 init2 tr)) = [].
Proof.
  induction tr as [|e tr IH] using rev_ind; [reflexivity|].
  rewrite run2_app. change (run2 (run2 init2 tr) [e]) with (step2 (run2 init2 tr) e).
  intros E.
  destruct (before_loadeddata_step _ e (loop_shape_run tr) E) as [E' D].
  rewrite D. exact (IH E').
Qed.

Lemma commit_same (old : bool * Z * option FaceLandmarker) (b : state) :
  same_deps (fst old) b = true ->
  same_detector (snd old) (faceLandmarker b) = true ->
  commit2 old b = b.
Proof.
  intros H1 H2. unfold commit2. rewrite H1, H2. destruct (mounted b); reflexivity.
Qed.

(** 'loadeddata' with the detector in place makes the first detection
    call. *)
Lemma loadeddata_step (s : state2) (h : FaceLandmarker) :
  loop_shape (base s) ->
  mounted (base s) = true -> media (base s) = Attached ->
  faceLandmarker (base s) = Some h ->
  log (base (step2 s LoadedData)) = (log (base s) ++ [DetectForVideo h])%list /\
  pending (base (step2 s LoadedData)) = [mkClosure (Some h)].
Proof.
  intros H Hm Hmd Hf.
  destruct s as [[t r f st m iv n ivs md ls q pd lg un] dr].
  cbn [base mounted media faceLandmarker] in *. subst.
  destruct H as [A B C D|h' A B C D|h' A B M C D|h' A B M C D];
    cbn [faceLandmarker listeners rafQueue pending media] in *;
    try discriminate; subst.
  injection A as <-.
  unfold step2. cbn [handle2 base media listeners expected_listeners
    fold_left on_base timerRunning timer faceLandmarker].
  rewrite commit_same.
  - split; reflexivity.
  - exec2. rewrite Z.eqb_refl. destruct r; reflexivity.
  - exec2. apply Nat.eqb_refl.
Qed.

(** *** The drawing calls *)

Lemma over_painted_frame_mono (lg l : list call) (p : nat * drawing_call) :
  over_painted_frame lg p = true -> over_painted_frame (lg ++ l) p = true.
Proof.
  unfold over_painted_frame. destruct (fst p) as [|n]; [discriminate|].
  destruct (nth_error lg n) as [c|] eqn:E; [|discriminate].
  rewrite nth_error_app1 by (apply nth_error_Some; congruence).
  rewrite E. exact (fun x => x).
Qed.

Lemma forallb_over_painted_frame_mono (lg l : list call)
  (ps : list (nat * drawing_call)) :
  forallb (over_painted_frame lg) ps = true ->
  forallb (over_painted_frame (lg ++ l)) ps = true.
Proof.
  rewrite !forallb_forall. intros H p Hp.
  apply over_painted_frame_mono, H, Hp.
Qed.

Lemma just_painted (lg : list call) (x c : call) (d : drawing_call) :
  over_painted_frame
    (lg ++ [x; DrawImage 840 680; c])
    (List.length (lg ++ [x; DrawImage 840 680]), d)
  = true.
Proof.
  unfold over_painted_frame. cbn [fst].
  rewrite length_app. cbn [List.length].
  replace (Datatypes.length lg + 2)%nat with (S (Datatypes.length lg + 1))
    by lia.
  rewrite nth_error_app2 by lia.
  replace (Datatypes.length lg + 1 - Datatypes.length lg)%nat with 1%nat by lia.
  reflexivity.
Qed.

Ltac drawn Same :=
  first
    [ apply Same; reflexivity
    | eexists _, []; cbn [fold_left expected_listeners]; exec2;
      split; [rewrite <- ?app_assoc; reflexivity|];
      split; [symmetry; apply app_nil_r|split; reflexivity]
    | eexists _, _; exec2;
      split; [rewrite <- !app_assoc; reflexivity|];
      split; [rewrite <- !app_assoc; reflexivity|];
      cbn [app forallb]; rewrite !just_painted; split; reflexivity ].

Lemma handle_drawing (s : state2) (e : event) :
  loop_shape (base s) ->
  exists l new,
    log (base (handle2 e s)) = (log (base s) ++ l)%list /\
    drawing (handle2 e s) = (drawing s ++ new)%list /\
    forallb (over_painted_frame (log (base s) ++ l)) new = true /\
    List.length new = (10 * List.length (filter is_new_utils new))%nat.
Proof.
  intros H. destruct s as [[t r f st m iv n ivs md ls q pd lg un] dr].
  cbn [base] in H.
  assert (Same : forall lg' dr',
            lg' = lg -> dr' = dr ->
            exists l new,
              lg' = (lg ++ l)%list /\ dr' = (dr ++ new)%list /\
              forallb (over_painted_frame (lg ++ l)) new = true /\
              List.length new = (10 * List.length (filter is_new_utils new))%nat).
  { intros lg' dr' E1 E2. exists [], []. rewrite !app_nil_r. auto. }
  destruct e; cbn [handle2 base drawing log faceLandmarker].
  8: { cbn [on_base base intervals]. rewrite fold_tick.
       destruct m; apply Same; reflexivity. }
  all: destruct H as [A B C D|h' A B C D|h' A B M C D|h' A B M C D];
    cbn [faceLandmarker listeners rafQueue pending media] in *; subst;
    first [ drawn Same
          | destruct m; drawn Same
          | destruct m, md; drawn Same
          | destruct m, faceLandmarks; drawn Same
          | destruct m, iv; drawn Same ].
Qed.

Lemma over_painted_step (s : state2) (e : event) :
  loop_shape (base s) ->
  forallb (over_painted_frame (log (base s))) (drawing s) = true ->
  forallb (over_painted_frame (log (base (step2 s e)))) (drawing (step2 s e))
  = true.
Proof.
  intros H I. unfold step2. cbn [on_base base drawing].
  destruct (commit_log_grows2
              (timerRunning (base s), timer (base s), faceLandmarker (base s))
              (base (handle2 e s))) as [l2 E2].
  destruct (handle_drawing s e H) as (l & new & E & D & N & _).
  rewrite E2, D, E. apply forallb_over_painted_frame_mono.
  rewrite forallb_app, N, andb_true_r.
  apply forallb_over_painted_frame_mono, I.
Qed.


Lemma over_painted_run (tr : list event) :
  forallb (over_painted_frame (log (base (run2 init2 tr)))) (drawing (run2 init2 tr))
  = true.
Proof.
  induction tr as [|e tr IH] using rev_ind; [reflexivity|].
  rewrite run2_app. change (run2 (run2 init2 tr) [e]) with (step2 (run2 init2 tr) e).
  apply over_painted_step; [apply loop_shape_run|exact IH].
Qed.

Lemma ten_per_face_step (s : state2) (e : event) :
  loop_shape (base s) ->
  List.length (drawing s)
  = (10 * List.length (filter is_new_utils (drawing s)))%nat ->
  List.length (drawing (step2 s e))
  = (10 * List.length (filter is_new_utils (drawing (step2 s e))))%nat.
Proof.
  intros H I. unfold step2. cbn [on_base drawing].
  destruct (handle_drawing s e H) as (l & new & _ & D & _ & N).
  rewrite D, filter_app, !length_app. lia.
Qed.

Lemma ten_per_face_run (tr : list event) :
  List.length (drawing (run2 init2 tr))
  = (10 * List.length (filter is_new_utils (drawing (run2 init2 tr))))%nat.
Proof.
  induction tr as [|e tr IH] using rev_ind; [reflexivity|].
  rewrite run2_app. change (run2 (run2 init2 tr) [e]) with (step2 (run2 init2 tr) e).
  apply ten_per_face_step; [apply loop_shape_run|exact IH].
Qed.

(** *** The refs *)





End Component2Facts.

Module Extras2.
Import Component Observations Component2 Component2Facts.

(** X15.  Second copy: the 'loadeddata' listeners are the one registered at
    mount, which holds no detector, and, once the detector is loaded, one
    more, which holds it; no other is ever added and none is removed. *)
Theorem listeners_follow_the_detector (tr : list event) :
  listeners (base (run2 init2 tr))
  = expected_listeners (faceLandmarker (base (run2 init2 tr))).
Proof.
  destruct (loop_shape_run tr) as [A B C D|h A B C D|h A B M C D|h A B M C D];
    rewrite A; exact B.
Qed.

(** X16.  Second copy: at most one activation of [detectFace] is scheduled
    or suspended, none before 'loadeddata', and it holds the detector of
    the state. *)
Theorem one_activation_in_flight (tr : list event) :
  let b := base (run2 init2 tr) in
  (List.length (pending b) + List.length (rafQueue b) <= 1)%nat /\
  (is_loaded (media b) = false -> pending b = [] /\ rafQueue b = []) /\
  (forall c, In c (pending b ++ rafQueue b) -> captured c = faceLandmarker b).
Proof.
  cbv zeta.
  destruct (loop_shape_run tr) as [A B C D|h A B C D|h A B M C D|h A B M C D];
    rewrite A, C, D; cbn [List.length app Nat.add In];
    (split; [lia|]); split.
  - intros _. split; reflexivity.
  - intros c [].
  - intros _. split; reflexivity.
  - intros c [].
  - rewrite M. discriminate.
  - intros c [<-|[]]. reflexivity.
  - rewrite M. discriminate.
  - intros c [<-|[]]. reflexivity.
Qed.

(** X17.  Second copy: when 'loadeddata' has fired before the detector is
    loaded, no detection call is ever made, whatever happens afterwards. *)
Theorem detector_after_loadeddata_is_never_used (tr1 tr2 : list event) :
  no_loader_event tr1 = true ->
  media (base (run2 init2 tr1)) = Loaded ->
  detect_calls (base (run2 init2 (tr1 ++ tr2))) = [].
Proof.
  intros Htr Hm.
  destruct (unloaded_run tr1 init2 Htr loop_shape_init eq_refl) as (S & F & D).
  rewrite run2_app, inert_run2; [exact D|].
  unfold inert2. rewrite Hm.
  destruct S as [A B C E|h A B C E|h A B M C E|h A B M C E];
    try congruence; rewrite C, E; reflexivity.
Qed.

Lemma detector_after_loadeddata_is_never_used_witness :
  detect_calls
    (base (run2 init2 ([StreamGranted; LoadedData]
                     ++ [DetectorLoaded 7%nat; LoadedData; AnimationFrame])))
  = [].
Proof.
  apply (detector_after_loadeddata_is_never_used [StreamGranted; LoadedData]);
    reflexivity.
Defined.

(** X18.  Second copy: when the detector is loaded and the stream attached,
    'loadeddata' makes the first detection call, with that detector, and
    leaves its activation suspended. *)
Theorem detector_before_loadeddata_starts_detection
  (tr : list event) (h : FaceLandmarker) :
  mounted (base (run2 init2 tr)) = true ->
  media (base (run2 init2 tr)) = Attached ->
  faceLandmarker (base (run2 init2 tr)) = Some h ->
  detect_calls (base (run2 init2 (tr ++ [LoadedData]))) = [DetectForVideo h] /\
  pending (base (run2 init2 (tr ++ [LoadedData]))) = [mkClosure (Some h)].
Proof.
  intros Hm Hmd Hf. rewrite run2_app.
  change (run2 (run2 init2 tr) [LoadedData]) with (step2 (run2 init2 tr) LoadedData).
  destruct (loadeddata_step _ h (loop_shape_run tr) Hm Hmd Hf) as [L P].
  split; [|exact P].
  unfold detect_calls. rewrite L, filter_app.
  change (filter is_detect (log (base (run2 init2 tr))))
    with (detect_calls (base (run2 init2 tr))).
  rewrite before_loadeddata_run by (rewrite Hmd; reflexivity). reflexivity.
Qed.

Lemma detector_before_loadeddata_starts_detection_witness :
  detect_calls
    (base (run2 init2 ([DetectorLoaded 7%nat; StreamGranted] ++ [LoadedData])))
  = [DetectForVideo 7%nat] /\
  pending
    (base (run2 init2 ([DetectorLoaded 7%nat; StreamGranted] ++ [LoadedData])))
  = [mkClosure (Some 7%nat)].
Proof.
  apply (detector_before_loadeddata_starts_detection
           [DetectorLoaded 7%nat; StreamGranted] 7%nat); reflexivity.
Defined.

(** X19.  Second copy: every call on [DrawingUtils] is made right after
    [drawImage] painted the whole canvas, with no browser call in between,
    and there are ten such calls for each [new DrawingUtils]. *)
Theorem mesh_is_drawn_over_the_painted_frame (tr : list event) :
  forallb (over_painted_frame (log (base (run2 init2 tr)))) (drawing (run2 init2 tr))
  = true /\
  List.length (drawing (run2 init2 tr))
  = (10 * List.length (filter is_new_utils (drawing (run2 init2 tr))))%nat.
Proof. split; [apply over_painted_run|apply ten_per_face_run]. Qed.



End Extras2.
